(** * HSA intrinsic lowering rules of numba ([numba/hsa/hsaimpl.py])

    A shallow embedding of the lowering rules for the HSAIL work-item
    intrinsics, the atomic add and the shared-memory array allocation,
    together with the properties of them that the specification states.

    The rules are compile-time code: they receive a target context and an
    LLVM builder from the host compiler and drive them.  The embedding keeps
    that shape.  The LLVM module and the builder form an explicit state
    ([lstate]); a rule is a computation in a state-and-exception monad
    ([Lower]) in which a Python [raise] keeps the state reached so far; the
    host's tables and helpers that are not part of the file (manglers, type
    mapping, target constants, data layout) are the fields of type classes. *)

From stdpp Require Import base option list strings pretty gmap.
From Stdlib Require Import ZArith Lia Ascii.

Set Default Proof Using "Type".
Local Open Scope Z_scope.

(** ** Python values the rules compute with *)

(** Built-in exceptions raised by the rules, each with its message. *)
Inductive exn : Type :=
| TypeError (msg : string)
| ValueError (msg : string)
| IndexError (msg : string)
| KeyError (msg : string)
| AttributeError (msg : string)
| NotImplementedError (msg : string).

(** Outcome of a Python expression that may raise. *)
Inductive result (A : Type) : Type :=
| Ok (a : A)
| Raise (e : exn).
Arguments Ok {A} a.
Arguments Raise {A} e.

Definition result_bind {A B} (r : result A) (k : A → result B) : result B :=
  match r with
  | Ok a => k a
  | Raise e => Raise e
  end.

(** [str(n)] for a Python int. *)
Definition str_int (n : Z) : string := pretty n.

(** [len(s)] for a Python str, as an int. *)
Definition len_str (s : string) : Z := Z.of_nat (String.length s).

Module Py.

(** Where [str.format] is within the template: in literal text, or inside
    a replacement field whose index digits read so far are kept. *)
Inductive fstate : Type :=
| Text
| Field (digits : option N).

Definition digit_of (c : ascii) : option N :=
  let n := N_of_ascii c in
  if ((48 <=? n) && (n <=? 57))%N then Some (n - 48)%N else None.

(** [template.format( *args )] for the templates of this file: literal text
    and replacement fields [{N}] that name a positional argument by its
    decimal index.  The arguments arrive already converted by [str].
    Other field syntax is rejected with the error CPython gives for a
    malformed field. *)
Fixpoint format_from (st : fstate) (template : string) (args : list string)
  : result string :=
  match template with
  | EmptyString =>
      match st with
      | Text => Ok EmptyString
      | Field _ => Raise (ValueError "expected '}' before end of string")
      end
  | String c rest =>
      match st with
      | Text =>
          if Ascii.eqb c "{" then format_from (Field None) rest args
          else if Ascii.eqb c "}"
               then Raise (ValueError "Single '}' encountered in format string")
               else result_bind (format_from Text rest args)
                                (λ out, Ok (String c out))
      | Field ds =>
          if Ascii.eqb c "}" then
            match ds with
            | None => Raise (ValueError "unsupported replacement field")
            | Some i =>
                match args !! N.to_nat i with
                | Some a =>
                    result_bind (format_from Text rest args)
                                (λ out, Ok (a +:+ out))
                | None =>
                    Raise (IndexError "Replacement index out of range")
                end
            end
          else
            match digit_of c with
            | Some d =>
                format_from (Field (Some (10 * default 0%N ds + d)%N)) rest args
            | None => Raise (ValueError "unsupported replacement field")
            end
      end
  end.

Definition format (template : string) (args : list string) : result string :=
  format_from Text template args.

(** [functools.reduce(f, seq)] without an initial value: the first item
    seeds the accumulator, and an empty sequence is a [TypeError]. *)
Definition reduce {A} (f : A → A → A) (seq : list A) : result A :=
  match seq with
  | [] => Raise (TypeError "reduce() of empty sequence with no initial value")
  | x :: xs => Ok (foldl f x xs)
  end.

End Py.

(** ** The host's types ([numba.types]) *)

Module types.

(** The numba types the rules inspect.  [numba.types] is the host's, so
    only the part this file looks at is represented: the scalars, arrays
    with their [dtype], [ndim] and [layout], and the two tuple kinds with
    their [len] and iteration order. *)
#[local] Unset Elimination Schemes.
Inductive ntype : Type :=
| Boolean
| Integer (signed : bool) (bitwidth : N)
| Float (bitwidth : N)
| Complex (bitwidth : N)
| Array (dtype : ntype) (ndim : nat) (layout : string)
| UniTuple (dtype : ntype) (count : nat)
| Tuple (tys : list ntype).
#[local] Set Elimination Schemes.

Definition boolean := Boolean.
Definition int8 := Integer true 8.
Definition int16 := Integer true 16.
Definition int32 := Integer true 32.
Definition int64 := Integer true 64.
Definition uint8 := Integer false 8.
Definition uint16 := Integer false 16.
Definition uint32 := Integer false 32.
Definition uint64 := Integer false 64.
Definition float32 := Float 32.
Definition float64 := Float 64.
Definition complex64 := Complex 64.
Definition complex128 := Complex 128.

(** Python's [==] on types: structural equality. *)
Fixpoint eqb (a b : ntype) {struct a} : bool :=
  match a, b with
  | Boolean, Boolean => true
  | Integer s1 w1, Integer s2 w2 => Bool.eqb s1 s2 && (w1 =? w2)%N
  | Float w1, Float w2 => (w1 =? w2)%N
  | Complex w1, Complex w2 => (w1 =? w2)%N
  | Array d1 n1 l1, Array d2 n2 l2 =>
      eqb d1 d2 && (n1 =? n2)%nat && String.eqb l1 l2
  | UniTuple d1 c1, UniTuple d2 c2 => eqb d1 d2 && (c1 =? c2)%nat
  | Tuple xs, Tuple ys =>
      (fix all2 (xs ys : list ntype) {struct xs} : bool :=
         match xs, ys with
         | [], [] => true
         | x :: xs', y :: ys' => eqb x y && all2 xs' ys'
         | _, _ => false
         end) xs ys
  | _, _ => false
  end.

(** [ty in domain] for a domain given as the collection of its members. *)
Definition member (ty : ntype) (domain : list ntype) : bool :=
  existsb (eqb ty) domain.

Definition signed_domain : list ntype := [int8; int16; int32; int64].
Definition unsigned_domain : list ntype := [uint8; uint16; uint32; uint64].
Definition integer_domain : list ntype := signed_domain ++ unsigned_domain.
Definition real_domain : list ntype := [float32; float64].
Definition complex_domain : list ntype := [complex64; complex128].

(** Modelled from the spec: [types.number_domain] is declared in the
    host's [numba.types], not in this file.  The specification calls a
    member a numeric type; the domain is the union of the integer, real
    and complex scalar types. *)
Definition number_domain : list ntype :=
  real_domain ++ integer_domain ++ complex_domain.

(** [len(ty)]: defined by the two tuple kinds only. *)
Definition len (ty : ntype) : result nat :=
  match ty with
  | UniTuple _ count => Ok count
  | Tuple tys => Ok (length tys)
  | _ => Raise (TypeError "object has no len()")
  end.

(** [iter(ty)]: the element types of a tuple type, in order. *)
Definition iter (ty : ntype) : result (list ntype) :=
  match ty with
  | UniTuple dtype count => Ok (replicate count dtype)
  | Tuple tys => Ok tys
  | _ => Raise (TypeError "object is not iterable")
  end.

(** The attributes [aryty.dtype] and [aryty.ndim]. *)
Definition dtype_of (ty : ntype) : result ntype :=
  match ty with
  | Array dtype _ _ => Ok dtype
  | UniTuple dtype _ => Ok dtype
  | _ => Raise (AttributeError "dtype")
  end.

Definition ndim_of (ty : ntype) : result nat :=
  match ty with
  | Array _ ndim _ => Ok ndim
  | _ => Raise (AttributeError "ndim")
  end.

(** [types.Kind(cls)] in a registered signature: any instance of the class. *)
Definition is_Array (ty : ntype) : bool :=
  match ty with Array _ _ _ => true | _ => false end.
Definition is_UniTuple (ty : ntype) : bool :=
  match ty with UniTuple _ _ => true | _ => false end.
Definition is_Tuple (ty : ntype) : bool :=
  match ty with Tuple _ => true | _ => false end.

End types.
Export types(ntype).

(** A typed function signature of the host: [sig.return_type], [sig.args]. *)
Record signature : Type := Signature {
  return_type : ntype;
  sig_args : list ntype
}.

(** ** LLVM types, values and the module under construction (llvmlite) *)

#[local] Unset Elimination Schemes.
Inductive lltype : Type :=
| LVoid
| LInt (bits : N)
| LFloat
| LDouble
| LPointer (pointee : lltype) (addrspace : Z)
| LArray (element : lltype) (count : Z)
| LStruct (elements : list lltype)
| LFunction (ret : lltype) (params : list lltype).
#[local] Set Elimination Schemes.

(** The attributes [llptrty.pointee] and [llptrty.addrspace]. *)
Definition pointee_of (ty : lltype) : result lltype :=
  match ty with
  | LPointer pointee _ => Ok pointee
  | _ => Raise (AttributeError "pointee")
  end.

Definition addrspace_of (ty : lltype) : result Z :=
  match ty with
  | LPointer _ addrspace => Ok addrspace
  | _ => Raise (AttributeError "addrspace")
  end.

(** An LLVM value as the rules hold it: a value handed in by the host, the
    result of a request made to the builder, a function or global variable
    of the module, a constant, or the value of an array structure. *)
#[local] Unset Elimination Schemes.
Inductive value : Type :=
| VArg (name : string)
| VReg (n : nat)
| VFunc (symbol : string)
| VGlobal (index : nat)
| VConst (ty : ntype) (z : Z)
| VArrayStruct (aryty : ntype) (data shape strides : option value).
#[local] Set Elimination Schemes.

(** The array structure proxy that [context.make_array(aryty)] builds: a
    Python object whose attributes the rules assign and read back. *)
Record array_proxy : Type := ArrayProxy {
  px_aryty : ntype;
  px_init : option value;
  px_data : option value;
  px_shape : option value;
  px_strides : option value
}.

(** A request made to the builder, directly ([builder.call],
    [builder.bitcast]) or through a host helper that is given the builder.
    The instructions a helper expands to are the host's; the request and
    its operands are what this file decides, and a helper is taken to
    succeed on the operands it is given. *)
Inductive request : Type :=
| Call (fn : value) (args : list value)
| Bitcast (v : value) (ty : lltype)
| Cast (v : value) (fromty toty : ntype)
| AddrSpaceCast (v : value) (addrspace : Z)
| ExtractValue (tup : value) (i : nat)
| GetItemPointer (aryty : ntype) (ary : array_proxy) (indices : list value)
| PackArray (vals : list value).

Definition is_call (r : request) : bool :=
  match r with Call _ _ => true | _ => false end.

Inductive constant : Type :=
| Null (ty : lltype).

Record llfunction : Type := LLFunction {
  fn_type : lltype;
  calling_convention : string
}.

Record llglobal : Type := LLGlobal {
  gv_type : lltype;
  gv_name : string;
  gv_addrspace : Z;
  linkage : string;
  initializer : option constant
}.

(** The state a rule works on: the functions and the global variables of the
    LLVM module, and the requests made to the builder so far, oldest first. *)
Record lstate : Type := LState {
  functions : gmap string llfunction;
  globals : list llglobal;
  code : list request
}.

Definition set_functions (f : gmap string llfunction → gmap string llfunction)
    (st : lstate) : lstate :=
  {| functions := f (functions st); globals := globals st; code := code st |}.

Definition set_globals (f : list llglobal → list llglobal) (st : lstate)
    : lstate :=
  {| functions := functions st; globals := f (globals st); code := code st |}.

Definition set_code (f : list request → list request) (st : lstate) : lstate :=
  {| functions := functions st; globals := globals st; code := f (code st) |}.

(** ** The lowering monad *)

(** A rule runs on a state and ends with a value or with a raised exception;
    either way the state reached is kept, since Python does not roll the
    module back when an exception propagates. *)
Definition Lower (A : Type) : Type := lstate → result A * lstate.

Definition ret {A} (a : A) : Lower A := λ st, (Ok a, st).

Definition bind {A B} (m : Lower A) (k : A → Lower B) : Lower B :=
  λ st, match m st with
        | (Ok a, st') => k a st'
        | (Raise e, st') => (Raise e, st')
        end.

Definition raise {A} (e : exn) : Lower A := λ st, (Raise e, st).

(** A pure Python expression evaluated inside a rule. *)
Definition lift {A} (r : result A) : Lower A := λ st, (r, st).

Declare Scope lower_scope.
Delimit Scope lower_scope with lower.
Notation "x <- m ;; k" := (bind m (λ x, k))
  (at level 100, m at next level, right associativity,
   format "'[v' x  <-  m  ;;  '/' k ']'") : lower_scope.
Notation "m ;;; k" := (bind m (λ _, k))
  (at level 100, right associativity) : lower_scope.
Local Open Scope lower_scope.

Fixpoint mapM {A B} (f : A → Lower B) (l : list A) : Lower (list B) :=
  match l with
  | [] => ret []
  | x :: xs => y <- f x ;; ys <- mapM f xs ;; ret (y :: ys)
  end.

(** [a, = seq], [a, b = seq] and [a, b, c = seq]. *)
Definition unpack1 {A} (seq : list A) : Lower A :=
  match seq with
  | [a] => ret a
  | _ => raise (ValueError "wrong number of values to unpack")
  end.

Definition unpack3 {A} (seq : list A) : Lower (A * A * A) :=
  match seq with
  | [a; b; c] => ret (a, b, c)
  | _ => raise (ValueError "wrong number of values to unpack")
  end.

(** A request appended to the builder; its result is named by its position. *)
Definition emit (r : request) : Lower value :=
  λ st, (Ok (VReg (length (code st))), set_code (λ c, c ++ [r]) st).

(** ** What the host supplies *)

(** The constants of [numba.hsa.target]. *)
Class Target : Type := {
  CC_SPIR_FUNC : string;
  SPIR_LOCAL_ADDRSPACE : Z;
  SPIR_GENERIC_ADDRSPACE : Z
}.

(** The manglers of [numba.itanium_mangler]: [mangle_c] takes a name and the
    C type names of the arguments, [mangle_type] gives the code of one
    numba type. *)
Class Mangler : Type := {
  mangle_c : string → list string → string;
  mangle_type : ntype → string
}.

(** The target context: the mapping from numba types to LLVM types, the type
    of the data pointer in the array structure of an array type
    ([ary.data.type], also the type of an item pointer), and the address
    size. *)
Class TargetContext : Type := {
  get_value_type : ntype → lltype;
  get_data_type : ntype → lltype;
  data_pointer_type : ntype → lltype;
  address_size : Z
}.

(** The remaining tables: the pointer-sized integer types [types.intp] and
    [types.uintp], [str] of a type, the data layouts of [hlc.DATALAYOUT]
    keyed by address size, the ABI size of an LLVM type under a data
    layout, and llvmlite's [LINKAGE_INTERNAL]. *)
Class Host : Type := {
  intp : ntype;
  uintp : ntype;
  str_type : ntype → string;
  DATALAYOUT : gmap Z string;
  get_abi_size : lltype → string → Z;
  LINKAGE_INTERNAL : string
}.

(** ** The rules *)

Section hsaimpl.
Context `{Target, Mangler, TargetContext, Host}.

(** *** Requests to the module and the builder *)

(** [mod.get_or_insert_function(fnty, name)]: the function of that name,
    declared with type [fnty] and the default calling convention when the
    module has none yet. *)
Definition get_or_insert_function (fnty : lltype) (name : string)
    : Lower value :=
  λ st, match functions st !! name with
        | Some _ => (Ok (VFunc name), st)
        | None =>
            (Ok (VFunc name),
             set_functions
               (insert name {| fn_type := fnty; calling_convention := "" |})
               st)
        end.

(** [fn.calling_convention = cc]. *)
Definition set_calling_convention (fn : value) (cc : string) : Lower () :=
  match fn with
  | VFunc name =>
      λ st, (Ok (),
             set_functions
               (alter (λ f, {| fn_type := fn_type f;
                               calling_convention := cc |}) name) st)
  | _ => raise (AttributeError "calling_convention")
  end.

(** [lmod.add_global_variable(ty, name, addrspace)]: a new global variable
    with no linkage and no initializer set. *)
Definition add_global_variable (ty : lltype) (name : string) (addrspace : Z)
    : Lower value :=
  λ st, (Ok (VGlobal (length (globals st))),
         set_globals
           (λ gs, gs ++ [{| gv_type := ty; gv_name := name;
                            gv_addrspace := addrspace; linkage := "";
                            initializer := None |}]) st).

Definition update_global (gv : value) (f : llglobal → llglobal) : Lower () :=
  match gv with
  | VGlobal i =>
      λ st, match globals st !! i with
            | Some g => (Ok (), set_globals (<[i := f g]>) st)
            | None => (Raise (AttributeError "global variable"), st)
            end
  | _ => raise (AttributeError "global variable")
  end.

(** [gvmem.linkage = l] and [gvmem.initializer = c]. *)
Definition set_linkage (gv : value) (l : string) : Lower () :=
  update_global gv (λ g, {| gv_type := gv_type g; gv_name := gv_name g;
                            gv_addrspace := gv_addrspace g; linkage := l;
                            initializer := initializer g |}).

Definition set_initializer (gv : value) (c : constant) : Lower () :=
  update_global gv (λ g, {| gv_type := gv_type g; gv_name := gv_name g;
                            gv_addrspace := gv_addrspace g;
                            linkage := linkage g;
                            initializer := Some c |}).

Definition builder_call (fn : value) (args : list value) : Lower value :=
  emit (Call fn args).

Definition builder_bitcast (v : value) (ty : lltype) : Lower value :=
  emit (Bitcast v ty).

(** [context.cast(builder, val, fromty, toty)]. *)
Definition context_cast (val : value) (fromty toty : ntype) : Lower value :=
  emit (Cast val fromty toty).

(** [context.addrspacecast(builder, val, addrspace)]. *)
Definition context_addrspacecast (val : value) (addrspace : Z)
    : Lower value :=
  emit (AddrSpaceCast val addrspace).

(** [context.get_constant(ty, z)]. *)
Definition context_get_constant (ty : ntype) (z : Z) : value := VConst ty z.

(** [context.make_array(aryty)(context, builder)] and
    [context.make_array(aryty)(context, builder, ary)]. *)
Definition context_make_array (aryty : ntype) (init : option value)
    : array_proxy :=
  {| px_aryty := aryty; px_init := init;
     px_data := None; px_shape := None; px_strides := None |}.

(** [ary.data = v], [ary.shape = v] and [ary.strides = v]. *)
Definition set_px_data (ary : array_proxy) (v : value) : array_proxy :=
  {| px_aryty := px_aryty ary; px_init := px_init ary; px_data := Some v;
     px_shape := px_shape ary; px_strides := px_strides ary |}.

Definition set_px_shape (ary : array_proxy) (v : value) : array_proxy :=
  {| px_aryty := px_aryty ary; px_init := px_init ary;
     px_data := px_data ary; px_shape := Some v;
     px_strides := px_strides ary |}.

Definition set_px_strides (ary : array_proxy) (v : value) : array_proxy :=
  {| px_aryty := px_aryty ary; px_init := px_init ary;
     px_data := px_data ary; px_shape := px_shape ary;
     px_strides := Some v |}.

(** [ary._getvalue()]; the rules take the value of a proxy that was
    created empty and then filled in, so the value is the structure of
    the attributes. *)
Definition getvalue (ary : array_proxy) : value :=
  VArrayStruct (px_aryty ary) (px_data ary) (px_shape ary) (px_strides ary).

(** [cgutils.unpack_tuple(builder, tup, count)]: the [count] members of
    the tuple value, in order. *)
Definition cgutils_unpack_tuple (tup : value) (count : nat)
    : Lower (list value) :=
  mapM (λ i, emit (ExtractValue tup i)) (seq 0 count).

(** [cgutils.get_item_pointer(builder, aryty, ary, inds)]. *)
Definition cgutils_get_item_pointer (aryty : ntype) (ary : array_proxy)
    (inds : list value) : Lower value :=
  emit (GetItemPointer aryty ary inds).

(** [cgutils.pack_array(builder, values)]. *)
Definition cgutils_pack_array (values : list value) : Lower value :=
  emit (PackArray values).

(** *** [_declare_function], [_atomic_mangle], [_declare_atomic] *)

(** The callers in this file leave [mangler] at its default, [mangle_c],
    which is passed here explicitly. *)
Definition _declare_function (name : string) (sig : signature)
    (cargs : list string) (mangler : string → list string → string)
    : Lower value :=
  let llretty := get_value_type (return_type sig) in
  let llargs := get_value_type <$> sig_args sig in
  let fnty := LFunction llretty llargs in
  let mangled := mangler name cargs in
  fn <- get_or_insert_function fnty mangled ;;
  set_calling_convention fn CC_SPIR_FUNC ;;;
  ret fn.

Definition _atomic_mangle (op : string) (ty : ntype) (addrspace : Z)
    : result string :=
  let tyletter := mangle_type ty in
  result_bind (Py.format "AS{0}" [str_int addrspace]) (λ as_str,
  result_bind (Py.format "U{0}{1}" [str_int (len_str as_str); as_str])
              (λ tyaddrstr,
  Py.format "_Z{0}atomic_{1}PV{2}{3}{3}"
            [str_int (7 + len_str op); op; tyaddrstr; tyletter])).

Definition _declare_atomic (op : string) (llptrty : lltype) (ty : ntype)
    : Lower value :=
  llty <- lift (pointee_of llptrty) ;;
  let llretty := llty in
  let llargs := [llptrty; llty] in
  let fnty := LFunction llretty llargs in
  addrspace <- lift (addrspace_of llptrty) ;;
  sym <- lift (_atomic_mangle op ty addrspace) ;;
  fn <- get_or_insert_function fnty sym ;;
  set_calling_convention fn CC_SPIR_FUNC ;;;
  ret fn.

(** *** The work-item intrinsics *)

(** Registered for [(types.uint32)]. *)
Definition get_global_id_impl (sig : signature) (args : list value)
    : Lower value :=
  dim <- unpack1 args ;;
  get_global_id <- _declare_function "get_global_id" sig ["unsigned int"]
                                     mangle_c ;;
  res <- builder_call get_global_id [dim] ;;
  context_cast res uintp intp.

(** Registered for [(types.uint32)]. *)
Definition get_local_id_impl (sig : signature) (args : list value)
    : Lower value :=
  dim <- unpack1 args ;;
  get_local_id <- _declare_function "get_local_id" sig ["unsigned int"]
                                    mangle_c ;;
  res <- builder_call get_local_id [dim] ;;
  context_cast res uintp intp.

(** Registered for [(types.uint32)]. *)
Definition get_group_id_impl (sig : signature) (args : list value)
    : Lower value :=
  dim <- unpack1 args ;;
  get_group_id <- _declare_function "get_group_id" sig ["unsigned int"]
                                    mangle_c ;;
  res <- builder_call get_group_id [dim] ;;
  context_cast res uintp intp.

(** Registered for [(types.uint32)]. *)
Definition get_global_size_impl (sig : signature) (args : list value)
    : Lower value :=
  dim <- unpack1 args ;;
  get_global_size <- _declare_function "get_global_size" sig
                                       ["unsigned int"] mangle_c ;;
  res <- builder_call get_global_size [dim] ;;
  context_cast res uintp intp.

(** Registered for [(types.uint32)]. *)
Definition get_local_size_impl (sig : signature) (args : list value)
    : Lower value :=
  dim <- unpack1 args ;;
  get_local_size <- _declare_function "get_local_size" sig
                                      ["unsigned int"] mangle_c ;;
  res <- builder_call get_local_size [dim] ;;
  context_cast res uintp intp.

(** The rule registered for [stubs.barrier] with [(types.uint32)].  The
    source gives it the name [get_local_size_impl] a second time; it is
    registered when it is defined, so both rules are in the registry. The
    result of the call is returned as it is. *)
Definition barrier_impl (sig : signature) (args : list value)
    : Lower value :=
  flags <- unpack1 args ;;
  barrier <- _declare_function "barrier" sig ["unsigned int"] mangle_c ;;
  builder_call barrier [flags].

(** *** Atomic add *)

(** The name [indty] holds the index type first and, for a single integer
    index, the one-item list of it afterwards. *)
Inductive indty_value : Type :=
| IndexType (ty : ntype)
| IndexList (tys : list ntype).

Definition len_indty (indty : indty_value) : result nat :=
  match indty with
  | IndexType ty => types.len ty
  | IndexList tys => Ok (length tys)
  end.

(** The signatures the rule is registered for:
    [(Kind(Array), intp, Any)], [(Kind(Array), Kind(UniTuple), Any)] and
    [(Kind(Array), Kind(Tuple), Any)]. *)
Definition atomic_add_registered (sig : signature) : bool :=
  match sig_args sig with
  | [aryty; indty; valty] =>
      types.is_Array aryty
      && (types.eqb indty intp || types.is_UniTuple indty
          || types.is_Tuple indty)
  | _ => false
  end.

(** The branch on the index type: a single integer index is taken as it
    is and [indty] becomes a one-item list; a tuple index is unpacked
    and each member is cast to [intp]. *)
Definition atomic_add_indices (inds : value) (indty : ntype)
    : Lower (list value * indty_value) :=
  if types.eqb indty intp
  then ret ([inds], IndexList [indty])
  else
    count <- lift (types.len indty) ;;
    indices <- cgutils_unpack_tuple inds count ;;
    elts <- lift (types.iter indty) ;;
    indices <- mapM (λ ti, context_cast ti.2 ti.1 intp)
                    (zip elts indices) ;;
    ret (indices, IndexType indty).

Definition hsail_atomic_add_tuple (sig : signature) (args : list value)
    : Lower value :=
  tys <- unpack3 (sig_args sig) ;;
  let '(aryty, indty, valty) := tys in
  vals <- unpack3 args ;;
  let '(ary, inds, val) := vals in
  dtype <- lift (types.dtype_of aryty) ;;
  ixs <- atomic_add_indices inds indty ;;
  let '(indices, indty) := ixs in
  (if negb (types.eqb dtype valty)
   then raise (TypeError ("expecting " +:+ str_type dtype +:+ " but got "
                          +:+ str_type valty))
   else ret ()) ;;;
  ndim <- lift (types.ndim_of aryty) ;;
  nidx <- lift (len_indty indty) ;;
  (if negb (ndim =? nidx)%nat
   then raise (TypeError ("indexing " +:+ str_int (Z.of_nat ndim)
                          +:+ "-D array with " +:+ str_int (Z.of_nat nidx)
                          +:+ "-D index"))
   else ret ()) ;;;
  let lary := context_make_array aryty (Some ary) in
  ptr <- cgutils_get_item_pointer aryty lary indices ;;
  atomic_add <- _declare_atomic "add" (data_pointer_type aryty) valty ;;
  builder_call atomic_add [ptr; val].

(** *** Shared-memory arrays *)

(** [ll.create_target_data(hlc.DATALAYOUT[context.address_size])]; the
    target data is identified with its layout string. *)
Definition _get_target_data : result string :=
  match DATALAYOUT !! address_size with
  | Some layout => Ok layout
  | None => Raise (KeyError (str_int address_size))
  end.

(** The loop [for i, lastsize in enumerate(reversed(shape[1:]))] with
    body [rstrides.append(lastsize * rstrides[-1])]. *)
Definition rstrides_append (rstrides : list Z) (lastsize : Z)
    : result (list Z) :=
  match last rstrides with
  | Some top => Ok (rstrides ++ [lastsize * top])
  | None => Raise (IndexError "list index out of range")
  end.

Fixpoint rstrides_loop (rstrides : list Z) (sizes : list Z)
    : result (list Z) :=
  match sizes with
  | [] => Ok rstrides
  | lastsize :: sizes' =>
      result_bind (rstrides_append rstrides lastsize)
                  (λ rstrides', rstrides_loop rstrides' sizes')
  end.

Definition _make_array (dataptr : value) (dtype : ntype) (shape : list Z)
    : Lower value :=
  let ndim := length shape in
  let aryty := types.Array dtype ndim "C" in
  let ary := context_make_array aryty None in
  data <- builder_bitcast dataptr (data_pointer_type aryty) ;;
  let ary := set_px_data ary data in
  targetdata <- lift _get_target_data ;;
  let lldtype := get_data_type dtype in
  let itemsize := get_abi_size lldtype targetdata in
  rstrides <- lift (rstrides_loop [itemsize] (reverse (tail shape))) ;;
  let strides := reverse rstrides in
  let kshape := context_get_constant intp <$> shape in
  let kstrides := context_get_constant intp <$> strides in
  packed_shape <- cgutils_pack_array kshape ;;
  let ary := set_px_shape ary packed_shape in
  packed_strides <- cgutils_pack_array kstrides ;;
  let ary := set_px_strides ary packed_strides in
  ret (getvalue ary).

Definition _generic_array (shape : list Z) (dtype : ntype)
    (symbol_name : string) (addrspace : Z) : Lower value :=
  elemcount <- lift (Py.reduce Z.mul shape) ;;
  let lldtype := get_data_type dtype in
  let laryty := LArray lldtype elemcount in
  if addrspace =? SPIR_LOCAL_ADDRSPACE then
    gvmem <- add_global_variable laryty symbol_name addrspace ;;
    (if elemcount <=? 0
     then raise (ValueError "array length <= 0")
     else set_linkage gvmem LINKAGE_INTERNAL ;;;
          set_initializer gvmem (Null laryty)) ;;;
    (if negb (types.member dtype types.number_domain)
     then raise (TypeError ("unsupported type: " +:+ str_type dtype))
     else ret ()) ;;;
    dataptr <- context_addrspacecast gvmem SPIR_GENERIC_ADDRSPACE ;;
    _make_array dataptr dtype shape
  else
    raise (NotImplementedError ("addrspace " +:+ str_int addrspace)).

(** Registered for [(Kind(UniTuple), Any)]; the two arguments are the
    shape, a tuple of Python ints, and the element type. *)
Definition hsail_smem_alloc_array (sig : signature)
    (args : list Z * ntype) : Lower value :=
  let '(shape, dtype) := args in
  _generic_array shape dtype "_hsapy_smem" SPIR_LOCAL_ADDRSPACE.

End hsaimpl.

(** ** Vocabulary of the statements *)

(** The number of elements a shape asks for. *)
Definition shape_product (shape : list Z) : Z := foldr Z.mul 1 shape.

(** The number of index components of an index type: a single integer
    index is one component, a tuple has as many as it has members. *)
Definition index_components `{Host} (indty : ntype) : nat :=
  if types.eqb indty intp then 1%nat
  else match indty with
       | types.UniTuple _ count => count
       | types.Tuple tys => length tys
       | _ => 0%nat
       end.

(** The C-contiguous strides over the sizes [sizes] that follow a leading
    dimension: the entry at position [k] is the item size times the
    product of the sizes from position [k] on, down to the item size
    itself. *)
Fixpoint strides_after (itemsize : Z) (sizes : list Z) : list Z :=
  itemsize * shape_product sizes
  :: match sizes with
     | [] => []
     | _ :: sizes' => strides_after itemsize sizes'
     end.

(** Decimal digits, and strings made of them. *)
Definition is_digit (c : ascii) : bool :=
  match Py.digit_of c with Some _ => true | None => false end.

Fixpoint all_digits (s : string) : bool :=
  match s with
  | EmptyString => true
  | String c s' => is_digit c && all_digits s'
  end.

(** A string that does not go on with a digit. *)
Definition no_digit_ahead (s : string) : bool :=
  match s with
  | EmptyString => true
  | String c _ => negb (is_digit c)
  end.

(** One list of requests continues another. *)
Definition code_extends (before after : list request) : Prop :=
  ∃ extra, after = before ++ extra.

(** The requests of a piece of code that are calls. *)
Definition calls_in (requests : list request) : list request :=
  filter (λ r, is_call r = true) requests.

(** A state with further requests made to the builder. *)
Definition with_code (st : lstate) (extra : list request) : lstate :=
  {| functions := functions st; globals := globals st;
     code := code st ++ extra |}.

(** A computation that, whatever its outcome, only makes requests that
    are not calls and leaves the module alone. *)
Definition quiet {A} (m : Lower A) : Prop :=
  ∀ st, ∃ r extra, m st = (r, with_code st extra) ∧ calls_in extra = [].

(** A rule that requests a call only when it succeeds: the global
    variables are never touched and earlier requests are kept; if the
    rule raises, it has requested no call and the functions of the module
    are as before; if it returns, it returns the result of its last
    request, a call, the only call it has requested. *)
Definition call_on_success (m : Lower value) : Prop :=
  ∀ st, ∃ extra,
    globals (m st).2 = globals st
    ∧ code (m st).2 = code st ++ extra
    ∧ match (m st).1 with
      | Raise _ => calls_in extra = [] ∧ functions (m st).2 = functions st
      | Ok v =>
          ∃ pre fn args,
            extra = pre ++ [Call fn args]
            ∧ calls_in pre = []
            ∧ v = VReg (length (code st ++ pre))
      end.

(** The member types of a tuple index type, in order. *)
Definition index_member_types (indty : ntype) : list ntype :=
  match indty with
  | types.UniTuple dtype count => replicate count dtype
  | types.Tuple tys => tys
  | _ => []
  end.

(** The requests an index gives rise to when [n] requests have been made
    before: none for a single integer index; for a tuple index one
    extraction per member, in order, then one cast to [intp] per
    extracted member, in order, from the member's type. *)
Definition index_requests `{Host} (inds : value) (indty : ntype) (n : nat)
    : list request :=
  if types.eqb indty intp then []
  else
    let elts := index_member_types indty in
    (ExtractValue inds <$> seq 0 (length elts))
    ++ ((λ ti, Cast ti.2 ti.1 intp)
        <$> zip elts (VReg <$> seq n (length elts))).

(** The index values handed to the item pointer when [n] requests have
    been made before: a single integer index itself, or the results of
    the casts of the members of a tuple index, in order. *)
Definition lowered_indices `{Host} (inds : value) (indty : ntype) (n : nat)
    : list value :=
  if types.eqb indty intp then [inds]
  else let count := length (index_member_types indty) in
       VReg <$> seq (n + count) count.

(** Structural induction on types, through the members of a tuple type. *)
Fixpoint ntype_ind (P : ntype → Prop)
    (HBoolean : P types.Boolean)
    (HInteger : ∀ s w, P (types.Integer s w))
    (HFloat : ∀ w, P (types.Float w))
    (HComplex : ∀ w, P (types.Complex w))
    (HArray : ∀ d n l, P d → P (types.Array d n l))
    (HUniTuple : ∀ d c, P d → P (types.UniTuple d c))
    (HTuple : ∀ tys, Forall P tys → P (types.Tuple tys))
    (ty : ntype) {struct ty} : P ty :=
  let rec := ntype_ind P HBoolean HInteger HFloat HComplex HArray HUniTuple
                       HTuple in
  match ty with
  | types.Boolean => HBoolean
  | types.Integer s w => HInteger s w
  | types.Float w => HFloat w
  | types.Complex w => HComplex w
  | types.Array d n l => HArray d n l (rec d)
  | types.UniTuple d c => HUniTuple d c (rec d)
  | types.Tuple tys =>
      HTuple tys
        ((fix all (l : list ntype) : Forall P l :=
            match l with
            | [] => @List.Forall_nil _ P
            | x :: l' => @List.Forall_cons _ P x l' (rec x) (all l')
            end) tys)
  end.

(** ** A host configuration to run the rules on

    The 64-bit HSAIL target with the Itanium manglers, as far as the
    inputs used below need it. *)

Module sample.

Definition target : Target :=
  {| CC_SPIR_FUNC := "spir_func";
     SPIR_LOCAL_ADDRSPACE := 3;
     SPIR_GENERIC_ADDRSPACE := 4 |}.

Definition C2CODE : list (string * string) :=
  [("void", "v"); ("bool", "b"); ("char", "c"); ("signed char", "a");
   ("unsigned char", "h"); ("short", "s"); ("unsigned short", "t");
   ("int", "i"); ("unsigned int", "j"); ("long", "l");
   ("unsigned long", "m"); ("long long", "x");
   ("unsigned long long", "y"); ("float", "f"); ("double", "d")].

Definition mangle_identifier (ident : string) : string :=
  str_int (len_str ident) +:+ ident.

Definition mangle_type_c (cname : string) : string :=
  match List.find (λ kv, String.eqb kv.1 cname) C2CODE with
  | Some kv => kv.2
  | None => mangle_identifier cname
  end.

Definition type_name (ty : ntype) : string :=
  match ty with
  | types.Boolean => "bool"
  | types.Integer true w => "int" +:+ pretty w
  | types.Integer false w => "uint" +:+ pretty w
  | types.Float w => "float" +:+ pretty w
  | types.Complex w => "complex" +:+ pretty w
  | types.Array _ _ _ => "array"
  | types.UniTuple _ _ => "unituple"
  | types.Tuple _ => "tuple"
  end.

Definition N2C (ty : ntype) : string :=
  match ty with
  | types.Boolean => "bool"
  | types.Integer true 8 => "signed char"
  | types.Integer true 16 => "short"
  | types.Integer true 32 => "int"
  | types.Integer true 64 => "long long"
  | types.Integer false 8 => "unsigned char"
  | types.Integer false 16 => "unsigned short"
  | types.Integer false 32 => "unsigned int"
  | types.Integer false 64 => "unsigned long long"
  | types.Float 32 => "float"
  | types.Float 64 => "double"
  | _ => type_name ty
  end.

(** Modelled from the spec: [numba.itanium_mangler] is not part of this
    file.  The specification names the convention, Itanium C++ ABI
    mangling: the prefix [_Z], the identifier with its length in front,
    then one code per argument type. *)
Definition mangler : Mangler :=
  {| mangle_c name cargs :=
       "_Z" +:+ mangle_identifier name
            +:+ String.concat "" (mangle_type_c <$> cargs);
     mangle_type ty := mangle_type_c (N2C ty) |}.

Definition scalar_type (ty : ntype) : lltype :=
  match ty with
  | types.Boolean => LInt 8
  | types.Integer _ w => LInt w
  | types.Float 32 => LFloat
  | types.Float _ => LDouble
  | types.Complex 64 => LStruct [LFloat; LFloat]
  | types.Complex _ => LStruct [LDouble; LDouble]
  | _ => LStruct []
  end.

Definition context : TargetContext :=
  {| get_value_type := scalar_type;
     get_data_type := scalar_type;
     data_pointer_type aryty :=
       match aryty with
       | types.Array dtype _ _ => LPointer (scalar_type dtype) 4
       | _ => LPointer (LInt 8) 4
       end;
     address_size := 64 |}.

Fixpoint abi_size (ty : lltype) : Z :=
  match ty with
  | LInt bits => (Z.of_N bits + 7) / 8
  | LFloat => 4
  | LDouble => 8
  | LPointer _ _ => 8
  | LArray element count => count * abi_size element
  | LStruct elements => foldr (λ t acc, abi_size t + acc) 0 elements
  | _ => 0
  end.

Definition host : Host :=
  {| intp := types.int64;
     uintp := types.uint64;
     str_type := type_name;
     DATALAYOUT := {[ 64 := "e-p:32:32-p1:64:64-i64:64-n32:64" ]};
     get_abi_size ty _ := abi_size ty;
     LINKAGE_INTERNAL := "internal" |}.

(** An empty module with nothing requested of the builder yet. *)
Definition empty : lstate :=
  {| functions := ∅; globals := []; code := [] |}.

(** Signatures and arguments the host would hand to the rules: the
    global id of a [uint32] dimension; an atomic add on a 1-D [float32]
    array with a pair of indices and a [float64] value; one on a 2-D
    [float32] array with a single integer index and a [float32] value;
    a well-typed one on a 2-D [float32] array; a shared-memory
    allocation. *)
Definition sig_id : signature := Signature types.uint64 [types.uint32].

Definition sig_mismatch : signature :=
  Signature types.float32
            [types.Array types.float32 1 "C";
             types.UniTuple types.int64 2; types.float64].

Definition sig_rank : signature :=
  Signature types.float32
            [types.Array types.float32 2 "C"; types.int64; types.float32].

Definition sig_add : signature :=
  Signature types.float32
            [types.Array types.float32 2 "C";
             types.UniTuple types.int64 2; types.float32].

Definition args_add : list value := [VArg "ary"; VArg "inds"; VArg "val"].

Definition sig_smem : signature :=
  Signature (types.Array types.float32 1 "C") [].

(** A module in which the symbol of [get_global_id] is already declared,
    with another type and no calling convention. *)
Definition declared : lstate :=
  {| functions :=
       {[ "_Z13get_global_idj" :=
            {| fn_type := LFunction (LInt 32) [LInt 64];
               calling_convention := "" |} ]};
     globals := []; code := [] |}.

(** The same context with an address size for which [DATALAYOUT] has no
    entry. *)
Definition context32 : TargetContext :=
  {| get_value_type := scalar_type;
     get_data_type := scalar_type;
     data_pointer_type := @data_pointer_type context;
     address_size := 32 |}.

End sample.

(** ** Properties *)

(** *** Strings and type equality *)

Lemma append_cons (c : ascii) (s t : string) :
  String c s +:+ t = String c (s +:+ t).
Proof. reflexivity. Qed.

Lemma append_empty_l (t : string) : "" +:+ t = t.
Proof. reflexivity. Qed.

Lemma append_empty_r (s : string) : s +:+ "" = s.
Proof.
  induction s as [|c s IH]; [done | by rewrite append_cons, IH].
Qed.

Lemma append_assoc (s t u : string) : (s +:+ t) +:+ u = s +:+ (t +:+ u).
Proof.
  induction s as [|c s IH]; [done | by rewrite !append_cons, IH].
Qed.

Lemma length_append (s t : string) :
  String.length (s +:+ t) = (String.length s + String.length t)%nat.
Proof.
  induction s as [|c s IH]; [done | rewrite append_cons; simpl; by rewrite IH].
Qed.

Lemma types_eqb_refl (ty : ntype) : types.eqb ty ty = true.
Proof.
  induction ty as [|s w|w|w|d n l IH|d c IH|tys IH] using ntype_ind; simpl.
  - done.
  - by rewrite Bool.eqb_reflx, N.eqb_refl.
  - apply N.eqb_refl.
  - apply N.eqb_refl.
  - by rewrite IH, Nat.eqb_refl, String.eqb_refl.
  - by rewrite IH, Nat.eqb_refl.
  - induction IH as [|x l Hx _ IHl]; [done | by rewrite Hx, IHl].
Qed.

Lemma types_eqb_true (a b : ntype) : types.eqb a b = true → a = b.
Proof.
  revert b.
  induction a as [|s w|w|w|d n l IH|d c IH|tys IH] using ntype_ind;
    intros [] Heq; simpl in Heq; try discriminate.
  - done.
  - apply andb_prop in Heq as [Hs Hw].
    apply Bool.eqb_prop in Hs. apply N.eqb_eq in Hw. by subst.
  - apply N.eqb_eq in Heq. by subst.
  - apply N.eqb_eq in Heq. by subst.
  - apply andb_prop in Heq as [Heq Hl]. apply andb_prop in Heq as [Hd Hn].
    apply IH in Hd. apply Nat.eqb_eq in Hn. apply String.eqb_eq in Hl.
    by subst.
  - apply andb_prop in Heq as [Hd Hc].
    apply IH in Hd. apply Nat.eqb_eq in Hc. by subst.
  - f_equal. revert tys0 Heq.
    induction IH as [|x l Hx _ IHl]; intros [|y ys] Heq;
      try discriminate; [done |].
    apply andb_prop in Heq as [Hxy Hrest].
    f_equal; [by apply Hx | by apply IHl].
Qed.

Lemma types_eqb_eq (a b : ntype) : types.eqb a b = true ↔ a = b.
Proof.
  split; [apply types_eqb_true | intros ->; apply types_eqb_refl].
Qed.

Lemma types_eqb_neq (a b : ntype) : a ≠ b → types.eqb a b = false.
Proof.
  intros Hne. destruct (types.eqb a b) eqn:E; [|done].
  by apply types_eqb_true in E.
Qed.

(** *** Requests that are not calls *)

Lemma calls_in_app (xs ys : list request) :
  calls_in (xs ++ ys) = calls_in xs ++ calls_in ys.
Proof. apply filter_app. Qed.

Lemma calls_in_fmap_quiet {A} (f : A → request) (l : list A) :
  (∀ x, is_call (f x) = false) → calls_in (f <$> l) = [].
Proof.
  intros Hf. induction l as [|x l IH]; [done|].
  unfold calls_in in *. simpl. rewrite filter_cons_False; [done|].
  rewrite Hf. done.
Qed.

(** A loop that makes one request per item appends those requests, in
    order, and touches nothing else. *)
Lemma mapM_emit {A} (f : A → request) (l : list A) (st : lstate) :
  mapM (λ x, emit (f x)) l st
  = (Ok (VReg <$> seq (length (code st)) (length l)),
     {| functions := functions st; globals := globals st;
        code := code st ++ (f <$> l) |}).
Proof.
  revert st. induction l as [|x l IH]; intros st; simpl.
  - unfold ret. destruct st. simpl. by rewrite app_nil_r.
  - unfold bind at 1. unfold emit at 1. unfold bind at 1.
    rewrite IH. simpl. unfold ret. rewrite length_app. simpl.
    rewrite <- app_assoc. simpl.
    replace (length (code st) + 1)%nat with (S (length (code st))) by lia.
    done.
Qed.

(** [str.format] on the templates of [_atomic_mangle]. *)
Example format_address_space : Py.format "AS{0}" ["3"] = Ok "AS3".
Proof. reflexivity. Qed.

Example format_symbol :
  Py.format "_Z{0}atomic_{1}PV{2}{3}{3}" ["10"; "add"; "U3AS1"; "f"]
  = Ok "_Z10atomic_addPVU3AS1ff".
Proof. reflexivity. Qed.

Example format_missing_argument :
  Py.format "U{0}{1}" ["3"]
  = Raise (IndexError "Replacement index out of range").
Proof. reflexivity. Qed.

Section properties.
Context `{Target, Mangler, TargetContext, Host}.

(** *** Declaring a builtin *)

(** What [mod.get_or_insert_function] followed by the assignment of the
    calling convention leaves in the module. *)
Lemma declare_in_module (fnty : lltype) (sym : string) (st : lstate) :
  ∃ st',
    bind (get_or_insert_function fnty sym)
         (λ fn, bind (set_calling_convention fn CC_SPIR_FUNC)
                     (λ _, ret fn)) st
    = (Ok (VFunc sym), st')
    ∧ code st' = code st
    ∧ globals st' = globals st
    ∧ calling_convention <$> functions st' !! sym = Some CC_SPIR_FUNC
    ∧ (functions st !! sym = None →
       fn_type <$> functions st' !! sym = Some fnty)
    ∧ (∀ s, s ≠ sym → functions st' !! s = functions st !! s).
Proof.
  unfold bind, get_or_insert_function.
  destruct (functions st !! sym) as [f|] eqn:Hsym; simpl.
  - eexists. split; [reflexivity|]. simpl.
    repeat split; try done.
    + by rewrite lookup_alter_eq, Hsym.
    + intros s Hs. by rewrite lookup_alter_ne.
  - eexists. split; [reflexivity|]. simpl.
    repeat split.
    + by rewrite lookup_alter_eq, lookup_insert_eq.
    + intros _. by rewrite lookup_alter_eq, lookup_insert_eq.
    + intros s Hs. by rewrite lookup_alter_ne, lookup_insert_ne.
Qed.

Lemma declare_function_spec (name : string) (sig : signature)
    (cargs : list string) (mangler : string → list string → string)
    (st : lstate) :
  let sym := mangler name cargs in
  ∃ st',
    _declare_function name sig cargs mangler st = (Ok (VFunc sym), st')
    ∧ code st' = code st
    ∧ globals st' = globals st
    ∧ calling_convention <$> functions st' !! sym = Some CC_SPIR_FUNC
    ∧ (functions st !! sym = None →
       fn_type <$> functions st' !! sym
       = Some (LFunction (get_value_type (return_type sig))
                         (get_value_type <$> sig_args sig)))
    ∧ (∀ s, s ≠ sym → functions st' !! s = functions st !! s).
Proof. intros sym. apply declare_in_module. Qed.

(** *** The atomic symbol *)

(** C2: for every operation name, element type and address space,
    [_atomic_mangle] returns [_Z], the decimal of [7 + len(op)], then
    [atomic_] and the operation name, then [PV], then [U] with the
    decimal length of [AS<a>] and [AS<a>] itself, then the type letter
    twice; and the decimal length prefix is the length of the identifier
    [atomic_<op>]. *)
Theorem atomic_mangle_string (op : string) (ty : ntype) (a : Z) :
  _atomic_mangle op ty a
  = Ok ("_Z" +:+ str_int (7 + len_str op) +:+ "atomic_" +:+ op +:+ "PV"
        +:+ ("U" +:+ str_int (len_str ("AS" +:+ str_int a))
             +:+ "AS" +:+ str_int a)
        +:+ mangle_type ty +:+ mangle_type ty)
  ∧ 7 + len_str op = len_str ("atomic_" +:+ op).
Proof.
  split.
  - unfold _atomic_mangle, Py.format. simpl.
    rewrite !append_empty_r.
    repeat first [rewrite append_assoc | rewrite append_cons
                 | rewrite append_empty_l].
    reflexivity.
  - unfold len_str. rewrite length_append. simpl. lia.
Qed.

(** *** The global-id intrinsic *)

(** C1: lowering [get_global_id] for a [uint32] dimension succeeds; it
    requests exactly one call, to the function whose symbol is
    [mangle_c] of [get_global_id] with the C argument type
    [unsigned int], which the module then holds with the calling
    convention [CC_SPIR_FUNC] (and, when the rule declared it, with the
    type built from the signature); the value returned is the cast of
    the call's result from [uintp] to [intp]. *)
Theorem get_global_id_lowering (sig : signature) (dim : value)
    (st : lstate) :
  sig_args sig = [types.uint32] →
  let sym := mangle_c "get_global_id" ["unsigned int"] in
  let n := length (code st) in
  ∃ st',
    get_global_id_impl sig [dim] st = (Ok (VReg (S n)), st')
    ∧ code st'
      = code st ++ [Call (VFunc sym) [dim]; Cast (VReg n) uintp intp]
    ∧ calls_in (drop n (code st')) = [Call (VFunc sym) [dim]]
    ∧ calling_convention <$> functions st' !! sym = Some CC_SPIR_FUNC
    ∧ (functions st !! sym = None →
       fn_type <$> functions st' !! sym
       = Some (LFunction (get_value_type (return_type sig))
                         [get_value_type types.uint32]))
    ∧ (∀ s, s ≠ sym → functions st' !! s = functions st !! s)
    ∧ globals st' = globals st.
Proof.
  intros Hsig sym n.
  destruct (declare_function_spec "get_global_id" sig ["unsigned int"]
              mangle_c st)
    as (st1 & Hrun & Hcode & Hglob & Hcc & Hty & Hother).
  fold sym in Hrun, Hcc, Hty, Hother.
  unfold get_global_id_impl, bind at 1. simpl.
  unfold bind at 1. rewrite Hrun.
  unfold bind, builder_call, context_cast, emit. simpl.
  eexists. split.
  { rewrite Hcode, length_app. simpl.
    replace (length (code st) + 1)%nat with (S n) by (subst n; lia).
    reflexivity. }
  simpl. rewrite Hcode, <- app_assoc. simpl.
  repeat split; try done.
  - subst n. by rewrite drop_app_length.
  - intros Hnone. rewrite (Hty Hnone), Hsig. done.
Qed.

(** *** Atomic add *)

Lemma atomic_add_indices_spec (inds : value) (indty : ntype)
    (st : lstate) :
  types.eqb indty intp || types.is_UniTuple indty || types.is_Tuple indty
  = true →
  ∃ indices indty' extra,
    atomic_add_indices inds indty st
    = (Ok (indices, indty'),
       {| functions := functions st; globals := globals st;
          code := code st ++ extra |})
    ∧ calls_in extra = []
    ∧ len_indty indty' = Ok (index_components indty).
Proof.
  intros Hkind. unfold atomic_add_indices, index_components.
  destruct (types.eqb indty intp) eqn:Hint.
  - exists [inds], (IndexList [indty]), [].
    unfold ret. destruct st. simpl. by rewrite app_nil_r.
  - destruct indty as [| | | | |d c|tys]; simpl in Hkind;
      try discriminate.
    + unfold bind at 1. unfold lift at 1. simpl.
      unfold bind at 1. unfold cgutils_unpack_tuple. rewrite mapM_emit.
      unfold bind at 1. unfold lift at 1. simpl.
      unfold bind at 1. unfold context_cast. rewrite mapM_emit.
      simpl. unfold ret. rewrite <- app_assoc.
      do 3 eexists. split; [reflexivity|]. split; [|done].
      rewrite calls_in_app, !calls_in_fmap_quiet; done.
    + unfold bind at 1. unfold lift at 1. simpl.
      unfold bind at 1. unfold cgutils_unpack_tuple. rewrite mapM_emit.
      unfold bind at 1. unfold lift at 1. simpl.
      unfold bind at 1. unfold context_cast. rewrite mapM_emit.
      simpl. unfold ret. rewrite <- app_assoc.
      do 3 eexists. split; [reflexivity|]. split; [|done].
      rewrite calls_in_app, !calls_in_fmap_quiet; done.
Qed.

Lemma registered_index_kind (sig : signature) (aryty indty valty : ntype) :
  sig_args sig = [aryty; indty; valty] →
  atomic_add_registered sig = true →
  types.eqb indty intp || types.is_UniTuple indty || types.is_Tuple indty
  = true.
Proof.
  unfold atomic_add_registered. intros ->.
  intros [_ ?]%andb_prop. done.
Qed.

(** C3: when the array's element dtype differs from the type of the
    value, the rule raises the mismatched-dtype [TypeError]; up to that
    point it has requested no call and has left the module as it was,
    so no atomic builtin is declared or called. *)
Theorem atomic_add_dtype_mismatch (sig : signature) (ary inds val : value)
    (dtype indty valty : ntype) (ndim : nat) (layout : string)
    (st : lstate) :
  sig_args sig = [types.Array dtype ndim layout; indty; valty] →
  atomic_add_registered sig = true →
  dtype ≠ valty →
  ∃ st' extra,
    hsail_atomic_add_tuple sig [ary; inds; val] st
    = (Raise (TypeError ("expecting " +:+ str_type dtype +:+ " but got "
                         +:+ str_type valty)), st')
    ∧ functions st' = functions st
    ∧ globals st' = globals st
    ∧ code st' = code st ++ extra
    ∧ calls_in extra = [].
Proof.
  intros Hsig Hreg Hne.
  destruct (atomic_add_indices_spec inds indty st
              (registered_index_kind _ _ _ _ Hsig Hreg))
    as (indices & indty' & extra & Hrun & Hquiet & _).
  unfold hsail_atomic_add_tuple. rewrite Hsig.
  unfold bind at 1. simpl. unfold bind at 1. simpl.
  unfold bind at 1. simpl. unfold bind at 1. rewrite Hrun.
  unfold bind at 1. rewrite (types_eqb_neq _ _ Hne). simpl.
  do 2 eexists. split; [reflexivity|]. simpl. done.
Qed.

(** C4, as the code has it: when the number of index components differs
    from the array's number of dimensions, the rule raises a
    [TypeError] without requesting a call or touching the module; a
    single integer index counts as one component.  The error is the
    wrong-index-dimensionality one when the array's dtype equals the
    value type; otherwise the dtype check, which runs first, has
    already raised the mismatched-dtype one. *)
Theorem atomic_add_index_mismatch (sig : signature) (ary inds val : value)
    (dtype indty valty : ntype) (ndim : nat) (layout : string)
    (st : lstate) :
  sig_args sig = [types.Array dtype ndim layout; indty; valty] →
  atomic_add_registered sig = true →
  ndim ≠ index_components indty →
  ∃ msg st' extra,
    hsail_atomic_add_tuple sig [ary; inds; val] st
    = (Raise (TypeError msg), st')
    ∧ functions st' = functions st
    ∧ globals st' = globals st
    ∧ code st' = code st ++ extra
    ∧ calls_in extra = []
    ∧ (dtype = valty →
       msg = "indexing " +:+ str_int (Z.of_nat ndim) +:+ "-D array with "
             +:+ str_int (Z.of_nat (index_components indty))
             +:+ "-D index")
    ∧ (dtype ≠ valty →
       msg = "expecting " +:+ str_type dtype +:+ " but got "
             +:+ str_type valty).
Proof.
  intros Hsig Hreg Hne.
  destruct (atomic_add_indices_spec inds indty st
              (registered_index_kind _ _ _ _ Hsig Hreg))
    as (indices & indty' & extra & Hrun & Hquiet & Hlen).
  unfold hsail_atomic_add_tuple. rewrite Hsig.
  unfold bind at 1. simpl. unfold bind at 1. simpl.
  unfold bind at 1. simpl. unfold bind at 1. rewrite Hrun.
  unfold bind at 1.
  destruct (types.eqb dtype valty) eqn:Hdt; simpl.
  - apply types_eqb_true in Hdt.
    unfold bind at 1. simpl. unfold bind at 1. rewrite Hlen. simpl.
    unfold bind at 1.
    apply Nat.eqb_neq in Hne. rewrite Hne. simpl.
    do 3 eexists. split; [reflexivity|]. simpl.
    repeat split; try done.
  - do 3 eexists. split; [reflexivity|]. simpl.
    repeat split; try done.
    intros ->. by rewrite types_eqb_refl in Hdt.
Qed.

(** *** Strides *)

Lemma reduce_mul_product (shape : list Z) :
  shape ≠ [] → Py.reduce Z.mul shape = Ok (shape_product shape).
Proof.
  destruct shape as [|x xs]; [done|]. intros _. simpl. f_equal.
  revert x. induction xs as [|y ys IH]; intros x; simpl.
  - lia.
  - rewrite IH. unfold shape_product. simpl. lia.
Qed.

Lemma rstrides_loop_snoc (rs sizes : list Z) (x : Z) :
  rstrides_loop rs (sizes ++ [x])
  = result_bind (rstrides_loop rs sizes) (λ rs', rstrides_append rs' x).
Proof.
  revert rs. induction sizes as [|y ys IH]; intros rs; simpl.
  - by destruct (rstrides_append rs x).
  - destruct (rstrides_append rs y); simpl; [apply IH | done].
Qed.

(** The loop never indexes an empty list, and what it leaves is, read
    backwards, the C-contiguous strides. *)
Lemma rstrides_loop_strides (itemsize : Z) (sizes : list Z) :
  ∃ rs, rstrides_loop [itemsize] (reverse sizes) = Ok rs
        ∧ reverse rs = strides_after itemsize sizes.
Proof.
  induction sizes as [|x t (rs & Hrs & Hrev)].
  - exists [itemsize]. split; [done|].
    rewrite reverse_singleton. unfold strides_after, shape_product. simpl.
    by rewrite Z.mul_1_r.
  - rewrite reverse_cons, rstrides_loop_snoc, Hrs. simpl.
    unfold rstrides_append.
    assert (last rs = Some (itemsize * shape_product t)) as ->.
    { rewrite <- head_reverse, Hrev. by destruct t. }
    eexists. split; [reflexivity|].
    rewrite reverse_snoc, Hrev. f_equal.
    unfold shape_product. simpl. lia.
Qed.

Lemma strides_after_length (itemsize : Z) (sizes : list Z) :
  length (strides_after itemsize sizes) = S (length sizes).
Proof. induction sizes as [|x t IH]; simpl; [done | by rewrite IH]. Qed.

Lemma strides_after_lookup (itemsize : Z) (sizes : list Z) (k : nat) :
  (k ≤ length sizes)%nat →
  strides_after itemsize sizes !! k
  = Some (itemsize * shape_product (drop k sizes)).
Proof.
  revert k. induction sizes as [|x t IH]; intros [|k] Hk; simpl in *;
    try done; try lia.
  apply IH. lia.
Qed.

(** *** Shared-memory arrays *)

Lemma make_array_run (dataptr : value) (dtype : ntype) (shape : list Z)
    (st : lstate) (layout : string) :
  DATALAYOUT !! address_size = Some layout →
  let aryty := types.Array dtype (length shape) "C" in
  let itemsize := get_abi_size (get_data_type dtype) layout in
  let n := length (code st) in
  _make_array dataptr dtype shape st
  = (Ok (VArrayStruct aryty (Some (VReg n)) (Some (VReg (S n)))
                      (Some (VReg (S (S n))))),
     {| functions := functions st; globals := globals st;
        code := code st
                ++ [Bitcast dataptr (data_pointer_type aryty);
                    PackArray (VConst intp <$> shape);
                    PackArray (VConst intp
                               <$> strides_after itemsize (tail shape))] |}).
Proof.
  intros Hlayout aryty itemsize n.
  destruct (rstrides_loop_strides itemsize (tail shape))
    as (rs & Hrs & Hrev).
  unfold _make_array, _get_target_data. rewrite Hlayout.
  unfold bind, lift, builder_bitcast, cgutils_pack_array, emit, ret.
  simpl. fold itemsize. rewrite Hrs. simpl.
  unfold set_code, getvalue, set_px_strides, set_px_shape, set_px_data,
    context_make_array, context_get_constant. simpl.
  rewrite Hrev, !length_app. simpl. rewrite <- !app_assoc. simpl.
  replace (length (code st) + 1)%nat with (S n) by (subst n; lia).
  replace (S n + 1)%nat with (S (S n)) by lia.
  done.
Qed.

Lemma make_array_no_layout (dataptr : value) (dtype : ntype)
    (shape : list Z) (st : lstate) :
  DATALAYOUT !! address_size = None →
  ∃ st', _make_array dataptr dtype shape st
         = (Raise (KeyError (str_int address_size)), st').
Proof.
  intros Hlayout. unfold _make_array, _get_target_data. rewrite Hlayout.
  unfold bind, lift, builder_bitcast, emit. simpl. by eexists.
Qed.

(** The allocation in the local address space, step by step: the shape
    is multiplied out, the global variable is added, and then come the
    size check, the element type check and the array structure. *)
Lemma generic_array_local_run (shape : list Z) (dtype : ntype)
    (symbol_name : string) (st : lstate) :
  shape ≠ [] →
  let laryty := LArray (get_data_type dtype) (shape_product shape) in
  let added linkage initializer :=
    {| functions := functions st;
       globals := globals st
                  ++ [{| gv_type := laryty; gv_name := symbol_name;
                         gv_addrspace := SPIR_LOCAL_ADDRSPACE;
                         linkage := linkage;
                         initializer := initializer |}];
       code := code st |} in
  _generic_array shape dtype symbol_name SPIR_LOCAL_ADDRSPACE st
  = if shape_product shape <=? 0
    then (Raise (ValueError "array length <= 0"), added "" None)
    else
      let st2 := added LINKAGE_INTERNAL (Some (Null laryty)) in
      if types.member dtype types.number_domain
      then _make_array (VReg (length (code st))) dtype shape
             {| functions := functions st2; globals := globals st2;
                code := code st
                        ++ [AddrSpaceCast (VGlobal (length (globals st)))
                                          SPIR_GENERIC_ADDRSPACE] |}
      else (Raise (TypeError ("unsupported type: " +:+ str_type dtype)),
            st2).
Proof.
  intros Hshape laryty added.
  set (numeric := types.member dtype types.number_domain).
  unfold _generic_array. rewrite (reduce_mul_product _ Hshape).
  fold numeric.
  unfold bind at 1. unfold lift at 1.
  rewrite Z.eqb_refl.
  unfold bind at 1. unfold add_global_variable at 1. fold laryty.
  unfold bind at 1.
  destruct (shape_product shape <=? 0) eqn:Hcount.
  - done.
  - unfold bind at 1. unfold set_linkage, set_initializer, update_global.
    simpl. rewrite list_lookup_middle by done. simpl.
    rewrite list_lookup_insert_eq
      by (rewrite length_app; simpl; lia).
    unfold set_globals. simpl.
    rewrite !insert_app_r_alt, !Nat.sub_diag by done. simpl.
    unfold bind at 1.
    destruct numeric; simpl.
    + unfold bind at 1. done.
    + done.
Qed.

Lemma smem_alloc_unfold (sig : signature) (shape : list Z)
    (dtype : ntype) (st : lstate) :
  hsail_smem_alloc_array sig (shape, dtype) st
  = _generic_array shape dtype "_hsapy_smem" SPIR_LOCAL_ADDRSPACE st.
Proof. reflexivity. Qed.

Lemma nonpositive_not_empty (shape : list Z) :
  shape_product shape ≤ 0 → shape ≠ [].
Proof. intros Hle ->. unfold shape_product in Hle. simpl in Hle. lia. Qed.

(** C5: when the product of the shape's entries is zero or negative, the
    allocation raises the [ValueError] for a non-positive array length;
    nothing has been requested of the builder. *)
Theorem smem_alloc_nonpositive_size (sig : signature) (shape : list Z)
    (dtype : ntype) (st : lstate) :
  shape_product shape ≤ 0 →
  ∃ st',
    hsail_smem_alloc_array sig (shape, dtype) st
    = (Raise (ValueError "array length <= 0"), st')
    ∧ code st' = code st
    ∧ functions st' = functions st.
Proof.
  intros Hle. rewrite smem_alloc_unfold.
  rewrite generic_array_local_run by by apply nonpositive_not_empty.
  apply Z.leb_le in Hle. rewrite Hle. by eexists.
Qed.

(** C6, as the code has it: when the element dtype is not in the number
    domain and the shape is not empty, the allocation raises an error
    with nothing requested of the builder: the [TypeError] for an
    unsupported element type when the shape has a positive number of
    elements, and otherwise the [ValueError] of the size check, which
    runs first. *)
Theorem smem_alloc_unsupported_dtype (sig : signature) (shape : list Z)
    (dtype : ntype) (st : lstate) :
  types.member dtype types.number_domain = false →
  shape ≠ [] →
  ∃ e st',
    hsail_smem_alloc_array sig (shape, dtype) st = (Raise e, st')
    ∧ code st' = code st
    ∧ functions st' = functions st
    ∧ (0 < shape_product shape →
       e = TypeError ("unsupported type: " +:+ str_type dtype))
    ∧ (shape_product shape ≤ 0 → e = ValueError "array length <= 0").
Proof.
  intros Hnum Hshape. rewrite smem_alloc_unfold.
  rewrite generic_array_local_run by done. rewrite Hnum.
  destruct (shape_product shape <=? 0) eqn:Hcount.
  - apply Z.leb_le in Hcount.
    do 2 eexists. split; [reflexivity|]. simpl.
    repeat split; try done. lia.
  - apply Z.leb_gt in Hcount.
    do 2 eexists. split; [reflexivity|]. simpl.
    repeat split; try done. lia.
Qed.

(** The errors the shared-memory intrinsic can end with. *)
Lemma smem_alloc_errors (sig : signature) (shape : list Z) (dtype : ntype)
    (st : lstate) (e : exn) (st' : lstate) :
  hsail_smem_alloc_array sig (shape, dtype) st = (Raise e, st') →
  e = TypeError "reduce() of empty sequence with no initial value"
  ∨ e = ValueError "array length <= 0"
  ∨ e = TypeError ("unsupported type: " +:+ str_type dtype)
  ∨ e = KeyError (str_int address_size).
Proof.
  rewrite smem_alloc_unfold. destruct shape as [|x xs].
  { intros [= <- _]. by left. }
  rewrite generic_array_local_run by done. cbv zeta.
  destruct (_ <=? 0).
  { intros [= <- _]. right. by left. }
  destruct (types.member _ _); cbv iota.
  - destruct (DATALAYOUT !! address_size) as [layout|] eqn:Hlayout.
    + by rewrite (make_array_run _ _ _ _ layout Hlayout).
    + match goal with
      | |- _make_array ?v ?d ?s ?t = _ → _ =>
          destruct (make_array_no_layout v d s t Hlayout) as [st2 ->]
      end.
      intros [= <- _]. do 3 right. done.
  - intros [= <- _]. right. right. by left.
Qed.

(** C7, as the code has it: the generic allocator called on a non-empty
    shape with an address space other than [SPIR_LOCAL_ADDRSPACE] raises
    the [NotImplementedError] for the address space and leaves the
    module and the builder untouched, so no array structure has been
    built; and the shared-memory intrinsic, which always passes
    [SPIR_LOCAL_ADDRSPACE], never ends with that error. *)
Theorem generic_array_other_addrspace (shape : list Z) (dtype : ntype)
    (symbol_name : string) (addrspace : Z) (st : lstate) :
  addrspace ≠ SPIR_LOCAL_ADDRSPACE →
  shape ≠ [] →
  _generic_array shape dtype symbol_name addrspace st
  = (Raise (NotImplementedError ("addrspace " +:+ str_int addrspace)), st)
  ∧ (∀ sig shape' dtype' st0,
       hsail_smem_alloc_array sig (shape', dtype') st0
       = _generic_array shape' dtype' "_hsapy_smem" SPIR_LOCAL_ADDRSPACE
                        st0
       ∧ ∀ msg, (hsail_smem_alloc_array sig (shape', dtype') st0).1
                ≠ Raise (NotImplementedError msg)).
Proof.
  intros Haddr Hshape. split.
  - unfold _generic_array. rewrite (reduce_mul_product _ Hshape).
    unfold bind, lift. apply Z.eqb_neq in Haddr. by rewrite Haddr.
  - intros sig shape' dtype' st0. split; [done|]. intros msg Hrun.
    destruct (hsail_smem_alloc_array sig (shape', dtype') st0)
      as [r st1] eqn:Hrun'.
    simpl in Hrun. subst r.
    apply smem_alloc_errors in Hrun' as [?|[?|[?|?]]]; done.
Qed.

(** C8: for a non-empty shape and a numeric dtype, every array structure
    the allocation returns is of the C-layout array type of that dtype
    and rank, its shape member packs the requested shape, and its
    strides member packs one stride per dimension, the stride of
    dimension [k] being the ABI size of the element times the product
    of the shape entries after position [k]; and the allocation does
    return one when the shape has a positive number of elements and the
    target's data layout is known. *)
Theorem smem_alloc_c_contiguous (sig : signature) (shape : list Z)
    (dtype : ntype) (st : lstate) :
  shape ≠ [] →
  types.member dtype types.number_domain = true →
  (∀ v st',
     hsail_smem_alloc_array sig (shape, dtype) st = (Ok v, st') →
     ∃ layout data i j strides,
       DATALAYOUT !! address_size = Some layout
       ∧ v = VArrayStruct (types.Array dtype (length shape) "C")
                          (Some data) (Some (VReg i)) (Some (VReg j))
       ∧ code st' !! i = Some (PackArray (VConst intp <$> shape))
       ∧ code st' !! j = Some (PackArray (VConst intp <$> strides))
       ∧ length strides = length shape
       ∧ ∀ k, (k < length shape)%nat →
              strides !! k
              = Some (get_abi_size (get_data_type dtype) layout
                      * shape_product (drop (S k) shape)))
  ∧ (0 < shape_product shape →
     is_Some (DATALAYOUT !! address_size) →
     ∃ v st', hsail_smem_alloc_array sig (shape, dtype) st = (Ok v, st')).
Proof.
  intros Hshape Hnum. rewrite smem_alloc_unfold.
  rewrite generic_array_local_run by done. rewrite Hnum. cbv zeta iota.
  destruct (shape_product shape <=? 0) eqn:Hcount.
  { split; [done|]. apply Z.leb_le in Hcount. lia. }
  destruct (DATALAYOUT !! address_size) as [layout|] eqn:Hlayout.
  - rewrite (make_array_run _ _ _ _ layout Hlayout). simpl.
    split; [|by eauto].
    intros v st' [= <- <-].
    exists layout, (VReg (S (length (code st)))),
           (S (S (length (code st)))), (S (S (S (length (code st))))),
           (strides_after (get_abi_size (get_data_type dtype) layout)
                          (tail shape)).
    cbn. rewrite length_app. cbn.
    replace (length (code st) + 1)%nat with (S (length (code st))) by lia.
    split; [done|]. split; [done|].
    assert (∀ (xs : list request) a b c d,
              (xs ++ [a]) ++ [b; c; d] = xs ++ [a; b; c; d]) as Hassoc.
    { intros. by rewrite <- app_assoc. }
    rewrite Hassoc.
    split; [|split; [|split]].
    + rewrite lookup_app_r by lia.
      by replace (S (S (length (code st))) - length (code st))%nat
           with 2%nat by lia.
    + rewrite lookup_app_r by lia.
      by replace (S (S (S (length (code st)))) - length (code st))%nat
           with 3%nat by lia.
    + rewrite strides_after_length. by destruct shape.
    + intros k Hk. destruct shape as [|x t]; [done|]. simpl in *.
      apply strides_after_lookup. lia.
  - split; [|by intros _ [? ?]].
    intros v st'.
    match goal with
    | |- _make_array ?a ?d ?s ?t = _ → _ =>
        destruct (make_array_no_layout a d s t Hlayout) as [st2 ->]
    end.
    done.
Qed.


(** C10: for the empty shape the allocation stops at the product of the
    shape: [reduce] without an initial value raises its [TypeError] on
    the empty sequence, whatever the address space, with the module and
    the builder untouched; the size check is not reached, and the error
    for a non-positive size is not the one raised. *)
Theorem smem_alloc_empty_shape (sig : signature) (dtype : ntype)
    (symbol_name : string) (addrspace : Z) (st : lstate) :
  _generic_array [] dtype symbol_name addrspace st
  = (Raise (TypeError "reduce() of empty sequence with no initial value"),
     st)
  ∧ hsail_smem_alloc_array sig ([], dtype) st
    = (Raise (TypeError "reduce() of empty sequence with no initial value"),
       st)
  ∧ (hsail_smem_alloc_array sig ([], dtype) st).1
    ≠ Raise (ValueError "array length <= 0").
Proof. repeat split; done. Qed.

End properties.

(** ** The rules on concrete inputs

    The statements above, applied on the sample host: each input meets
    the hypotheses of its statement, and the inputs on which a rule ends
    with an error other than the one its check is named for are run to
    the end. *)

Section on_sample.
#[local] Existing Instances sample.target sample.mangler sample.context
  sample.host.

Lemma get_global_id_lowering_witness :
  sig_args sample.sig_id = [types.uint32]
  ∧ ∃ st',
      get_global_id_impl sample.sig_id [VArg "dim"] sample.empty
      = (Ok (VReg 1), st')
      ∧ code st' = [Call (VFunc "_Z13get_global_idj") [VArg "dim"];
                    Cast (VReg 0) types.uint64 types.int64]
      ∧ calling_convention <$> functions st' !! "_Z13get_global_idj"
        = Some "spir_func".
Proof.
  split; [reflexivity|].
  destruct (get_global_id_lowering sample.sig_id (VArg "dim") sample.empty
              eq_refl)
    as (st' & Hrun & Hcode & _ & Hcc & _).
  exists st'. split; [exact Hrun|]. split; [exact Hcode | exact Hcc].
Defined.

(** A well-typed atomic add does reach its call: the two indices are
    unpacked and cast, the item pointer is taken, and the builtin
    [atomic_add] for [float] in the address space of the data pointer is
    declared and called on the pointer and the value. *)
Example atomic_add_on_sample :
  let run :=
    hsail_atomic_add_tuple sample.sig_add sample.args_add sample.empty in
  run.1 = Ok (VReg 5)
  ∧ calls_in (code run.2)
    = [Call (VFunc "_Z10atomic_addPVU3AS4ff") [VReg 4; VArg "val"]]
  ∧ calling_convention <$> functions run.2 !! "_Z10atomic_addPVU3AS4ff"
    = Some "spir_func".
Proof. vm_compute. repeat split. Qed.

Lemma float32_not_float64 : types.float32 ≠ types.float64.
Proof. discriminate. Qed.

Lemma atomic_add_dtype_mismatch_witness :
  sig_args sample.sig_mismatch
  = [types.Array types.float32 1 "C"; types.UniTuple types.int64 2;
     types.float64]
  ∧ atomic_add_registered sample.sig_mismatch = true
  ∧ types.float32 ≠ types.float64
  ∧ ∃ st' extra,
      hsail_atomic_add_tuple sample.sig_mismatch sample.args_add sample.empty
      = (Raise (TypeError "expecting float32 but got float64"), st')
      ∧ functions st' = ∅
      ∧ code st' = extra
      ∧ calls_in extra = [].
Proof.
  assert (atomic_add_registered sample.sig_mismatch = true) as Hreg
    by reflexivity.
  split; [reflexivity|]. split; [exact Hreg|].
  split; [exact float32_not_float64|].
  destruct (atomic_add_dtype_mismatch sample.sig_mismatch (VArg "ary")
              (VArg "inds") (VArg "val") types.float32
              (types.UniTuple types.int64 2) types.float64 1 "C"
              sample.empty eq_refl Hreg float32_not_float64)
    as (st' & extra & Hrun & Hfn & _ & Hcode & Hquiet).
  exists st', extra. split; [exact Hrun|]. split; [exact Hfn|].
  split; [exact Hcode | exact Hquiet].
Defined.

Lemma two_not_one_component :
  2%nat ≠ index_components types.int64.
Proof. vm_compute. discriminate. Qed.

Lemma atomic_add_index_mismatch_witness :
  sig_args sample.sig_rank
  = [types.Array types.float32 2 "C"; types.int64; types.float32]
  ∧ atomic_add_registered sample.sig_rank = true
  ∧ 2%nat ≠ index_components types.int64
  ∧ ∃ st',
      hsail_atomic_add_tuple sample.sig_rank sample.args_add sample.empty
      = (Raise (TypeError "indexing 2-D array with 1-D index"), st').
Proof.
  assert (atomic_add_registered sample.sig_rank = true) as Hreg
    by reflexivity.
  split; [reflexivity|]. split; [exact Hreg|].
  split; [exact two_not_one_component|].
  destruct (atomic_add_index_mismatch sample.sig_rank (VArg "ary") (VArg "inds")
              (VArg "val") types.float32 types.int64 types.float32 2 "C"
              sample.empty eq_refl Hreg two_not_one_component)
    as (msg & st' & extra & Hrun & _ & _ & _ & _ & Hmsg & _).
  exists st'. rewrite (Hmsg eq_refl) in Hrun. exact Hrun.
Defined.

(** C4 as stated fails where the dtype differs as well: a 1-D [float32]
    array indexed by a pair, with a [float64] value, ends with the
    mismatched-dtype error, not with the wrong-index-dimensionality
    one. *)
Lemma atomic_add_index_mismatch_masked :
  atomic_add_registered sample.sig_mismatch = true
  ∧ 1%nat ≠ index_components (types.UniTuple types.int64 2)
  ∧ (hsail_atomic_add_tuple sample.sig_mismatch sample.args_add sample.empty).1
    = Raise (TypeError "expecting float32 but got float64")
  ∧ ¬ ∃ st',
        hsail_atomic_add_tuple sample.sig_mismatch sample.args_add sample.empty
        = (Raise (TypeError "indexing 1-D array with 2-D index"), st').
Proof.
  split; [reflexivity|]. split; [vm_compute; discriminate|].
  split; [reflexivity|].
  intros [st' Hrun]. apply (f_equal fst) in Hrun.
  vm_compute in Hrun. discriminate Hrun.
Qed.

Lemma smem_alloc_nonpositive_size_witness :
  shape_product [2; 0; 4] ≤ 0
  ∧ ∃ st',
      hsail_smem_alloc_array sample.sig_smem ([2; 0; 4], types.float32)
                             sample.empty
      = (Raise (ValueError "array length <= 0"), st').
Proof.
  assert (shape_product [2; 0; 4] ≤ 0) as Hle by (vm_compute; discriminate).
  split; [exact Hle|].
  destruct (smem_alloc_nonpositive_size sample.sig_smem [2; 0; 4] types.float32
              sample.empty Hle) as (st' & Hrun & _).
  exists st'. exact Hrun.
Defined.

Lemma smem_alloc_unsupported_dtype_witness :
  types.member types.boolean types.number_domain = false
  ∧ [2; 4] ≠ ([] : list Z)
  ∧ ∃ st',
      hsail_smem_alloc_array sample.sig_smem ([2; 4], types.boolean) sample.empty
      = (Raise (TypeError "unsupported type: bool"), st').
Proof.
  assert ([2; 4] ≠ ([] : list Z)) as Hshape by discriminate.
  split; [reflexivity|]. split; [exact Hshape|].
  destruct (smem_alloc_unsupported_dtype sample.sig_smem [2; 4] types.boolean
              sample.empty eq_refl Hshape)
    as (e & st' & Hrun & _ & _ & Hpos & _).
  exists st'. rewrite Hrun, Hpos; [reflexivity|].
  vm_compute. reflexivity.
Defined.

(** C6 as stated fails where the size check fires first: a shape with
    no elements and the element type [bool] ends with the error for a
    non-positive size, not with the one for the element type. *)
Lemma smem_alloc_unsupported_dtype_masked :
  types.member types.boolean types.number_domain = false
  ∧ (hsail_smem_alloc_array sample.sig_smem ([0], types.boolean) sample.empty).1
    = Raise (ValueError "array length <= 0")
  ∧ ¬ ∃ st',
        hsail_smem_alloc_array sample.sig_smem ([0], types.boolean) sample.empty
        = (Raise (TypeError "unsupported type: bool"), st').
Proof.
  split; [reflexivity|]. split; [reflexivity|].
  intros [st' Hrun]. apply (f_equal fst) in Hrun.
  vm_compute in Hrun. discriminate Hrun.
Qed.

Lemma generic_array_other_addrspace_witness :
  0 ≠ SPIR_LOCAL_ADDRSPACE
  ∧ [3] ≠ ([] : list Z)
  ∧ _generic_array [3] types.float32 "_hsapy_smem" 0 sample.empty
    = (Raise (NotImplementedError "addrspace 0"), sample.empty).
Proof.
  assert (0 ≠ SPIR_LOCAL_ADDRSPACE) as Haddr by discriminate.
  assert ([3] ≠ ([] : list Z)) as Hshape by discriminate.
  split; [exact Haddr|]. split; [exact Hshape|].
  exact (proj1 (generic_array_other_addrspace [3] types.float32
                  "_hsapy_smem" 0 sample.empty Haddr Hshape)).
Defined.

(** C7 as stated fails on the empty shape: the product of the shape is
    taken before the address space is looked at, so the error is the
    one of [reduce], not the one for the address space. *)
Lemma generic_array_other_addrspace_empty_shape :
  0 ≠ SPIR_LOCAL_ADDRSPACE
  ∧ (_generic_array [] types.float32 "_hsapy_smem" 0 sample.empty).1
    = Raise
        (TypeError "reduce() of empty sequence with no initial value")
  ∧ ¬ ∃ st',
        _generic_array [] types.float32 "_hsapy_smem" 0 sample.empty
        = (Raise (NotImplementedError "addrspace 0"), st').
Proof.
  split; [discriminate|]. split; [reflexivity|].
  intros [st' Hrun]. apply (f_equal fst) in Hrun.
  vm_compute in Hrun. discriminate Hrun.
Qed.

Lemma smem_alloc_c_contiguous_witness :
  [2; 3; 4] ≠ ([] : list Z)
  ∧ types.member types.float32 types.number_domain = true
  ∧ ∃ data i j strides st',
      hsail_smem_alloc_array sample.sig_smem ([2; 3; 4], types.float32)
                             sample.empty
      = (Ok (VArrayStruct (types.Array types.float32 3 "C") (Some data)
                          (Some (VReg i)) (Some (VReg j))), st')
      ∧ code st' !! i
        = Some (PackArray (VConst types.int64 <$> [2; 3; 4]))
      ∧ code st' !! j = Some (PackArray (VConst types.int64 <$> strides))
      ∧ strides = [48; 16; 4].
Proof.
  assert ([2; 3; 4] ≠ ([] : list Z)) as Hshape by discriminate.
  split; [exact Hshape|]. split; [reflexivity|].
  destruct (smem_alloc_c_contiguous sample.sig_smem [2; 3; 4]
              types.float32 sample.empty Hshape eq_refl)
    as [Hsound Hlive].
  destruct Hlive as (v & st' & Hrun);
    [reflexivity | eexists; reflexivity |].
  destruct (Hsound v st' Hrun)
    as (layout & data & i & j & strides & _ & -> & Hi & Hj & Hlen & Hk).
  exists data, i, j, strides, st'.
  split; [exact Hrun|]. split; [exact Hi|]. split; [exact Hj|].
  destruct strides as [|a [|b [|c [|d rest]]]]; try discriminate Hlen.
  pose proof (Hk 0%nat ltac:(simpl; lia)) as H0.
  pose proof (Hk 1%nat ltac:(simpl; lia)) as H1.
  pose proof (Hk 2%nat ltac:(simpl; lia)) as H2.
  vm_compute in H0, H1, H2.
  injection H0 as ->. injection H1 as ->. injection H2 as ->.
  reflexivity.
Defined.


End on_sample.


(** ** The other rules, and the rules composed *)

(** *** Decimal numbers in a symbol *)

Lemma pretty_N_char_digit (x : N) : is_digit (pretty_N_char x) = true.
Proof. unfold pretty_N_char. by repeat case_match. Qed.

Lemma pretty_N_go_digits (x : N) (s : string) :
  all_digits s = true → all_digits (pretty_N_go x s) = true.
Proof.
  revert s. induction (N.lt_wf_0 x) as [x _ IH]; intros s Hs.
  assert (x = 0 ∨ 0 < x)%N as [->|Hpos] by lia.
  - by rewrite pretty_N_go_0.
  - rewrite pretty_N_go_step by done. apply IH.
    + by apply N.div_lt.
    + simpl. by rewrite pretty_N_char_digit.
Qed.

Lemma str_int_digits (n : Z) : 0 ≤ n → all_digits (str_int n) = true.
Proof.
  intros Hn. unfold str_int, pretty, pretty_Z.
  destruct n as [|p|p]; [done| |lia].
  unfold pretty, pretty_positive, pretty, pretty_N.
  case_decide; [done|]. by apply pretty_N_go_digits.
Qed.

(** A run of digits is delimited by what follows it. *)
Lemma digits_delimited (u v x y : string) :
  all_digits u = true → all_digits v = true →
  no_digit_ahead x = true → no_digit_ahead y = true →
  u +:+ x = v +:+ y → u = v ∧ x = y.
Proof.
  revert v. induction u as [|c u IH]; intros [|d v] Hu Hv Hx Hy Heq.
  - done.
  - rewrite append_empty_l, append_cons in Heq. subst x.
    simpl in Hx, Hv. apply andb_prop in Hv as [Hd _].
    rewrite Hd in Hx. done.
  - rewrite append_empty_l, append_cons in Heq. subst y.
    simpl in Hy, Hu. apply andb_prop in Hu as [Hc _].
    rewrite Hc in Hy. done.
  - rewrite !append_cons in Heq. injection Heq as -> Heq.
    simpl in Hu, Hv.
    apply andb_prop in Hu as [_ Hu]. apply andb_prop in Hv as [_ Hv].
    destruct (IH v Hu Hv Hx Hy Heq) as [-> ->]. done.
Qed.

(** Two prefixes of the same length of one string are the same. *)
Lemma same_length_prefix (u v x y : string) :
  String.length u = String.length v →
  u +:+ x = v +:+ y → u = v ∧ x = y.
Proof.
  revert v. induction u as [|c u IH]; intros [|d v] Hlen Heq;
    try discriminate Hlen.
  - done.
  - rewrite !append_cons in Heq. injection Heq as -> Heq.
    simpl in Hlen. injection Hlen as Hlen.
    destruct (IH v Hlen Heq) as [-> ->]. done.
Qed.

Lemma doubled_inj (s t : string) : s +:+ s = t +:+ t → s = t.
Proof.
  intros Heq. apply (same_length_prefix s t s t); [|done].
  apply (f_equal String.length) in Heq.
  rewrite !length_append in Heq. lia.
Qed.

Section coverage.
Context `{Target, Mangler, TargetContext, Host}.

(** The symbol of an atomic builtin, written out. *)
Lemma atomic_mangle_run (op : string) (ty : ntype) (a : Z) :
  _atomic_mangle op ty a
  = Ok ("_Z" +:+ (str_int (7 + len_str op)
        +:+ ("atomic_" +:+ (op
        +:+ ("PVU" +:+ (str_int (len_str ("AS" +:+ str_int a))
        +:+ (("AS" +:+ str_int a)
        +:+ (mangle_type ty +:+ mangle_type ty)))))))).
Proof.
  unfold _atomic_mangle, Py.format. simpl.
  rewrite !append_empty_r.
  repeat first [rewrite append_assoc | rewrite append_cons
               | rewrite append_empty_l].
  reflexivity.
Qed.

(** X1: the atomic symbol determines what it was made from: two symbols
    are equal only for the same operation name, the same address space
    and the same type letter. *)
Theorem atomic_mangle_injective (op1 op2 : string) (ty1 ty2 : ntype)
    (a1 a2 : Z) :
  _atomic_mangle op1 ty1 a1 = _atomic_mangle op2 ty2 a2 →
  op1 = op2 ∧ a1 = a2 ∧ mangle_type ty1 = mangle_type ty2.
Proof.
  rewrite !atomic_mangle_run. intros Heq.
  apply (f_equal (λ r, match r with Ok s => s | Raise _ => "" end)) in Heq.
  apply (same_length_prefix "_Z" "_Z") in Heq as [_ Heq]; [|done].
  apply digits_delimited in Heq as [Hlen Heq];
    [| apply str_int_digits; unfold len_str; lia
     | apply str_int_digits; unfold len_str; lia | done | done].
  apply (inj str_int) in Hlen.
  apply (same_length_prefix "atomic_" "atomic_") in Heq as [_ Heq]; [|done].
  apply same_length_prefix in Heq as [-> Heq];
    [| unfold len_str in Hlen; lia].
  apply (same_length_prefix "PVU" "PVU") in Heq as [_ Heq]; [|done].
  apply digits_delimited in Heq as [Hlen' Heq];
    [| apply str_int_digits; unfold len_str; lia
     | apply str_int_digits; unfold len_str; lia | done | done].
  apply (inj str_int) in Hlen'.
  apply same_length_prefix in Heq as [Has Hty];
    [| unfold len_str in Hlen'; lia].
  apply (same_length_prefix "AS" "AS") in Has as [_ Has]; [|done].
  apply (inj str_int) in Has.
  apply doubled_inj in Hty. done.
Qed.

(** *** Declaring a function *)

Lemma set_convention_twice (cc : string) (sym : string)
    (m : gmap string llfunction) :
  alter (λ f, {| fn_type := fn_type f; calling_convention := cc |}) sym
    (alter (λ f, {| fn_type := fn_type f; calling_convention := cc |}) sym m)
  = alter (λ f, {| fn_type := fn_type f; calling_convention := cc |}) sym m.
Proof.
  apply map_eq. intros s. destruct (decide (s = sym)) as [->|Hne].
  - rewrite !lookup_alter_eq. by destruct (m !! sym).
  - by rewrite !lookup_alter_ne.
Qed.

(** Once a name has been declared, declaring it again leaves the functions
    of the module as they are, whatever else the state holds. *)
Lemma declare_function_again (name : string) (sig sig' : signature)
    (cargs : list string) (mangler : string → list string → string)
    (st st1 : lstate) :
  functions st1 = functions (_declare_function name sig cargs mangler st).2 →
  functions (_declare_function name sig' cargs mangler st1).2
  = functions st1.
Proof.
  unfold _declare_function, bind, get_or_insert_function.
  destruct (functions st !! mangler name cargs) as [f|] eqn:Hf; simpl;
    intros Hst1.
  - assert (is_Some (functions st1 !! mangler name cargs)) as [g Hg].
    { rewrite Hst1, lookup_alter_eq, Hf. by eexists. }
    rewrite Hg. simpl. rewrite Hst1. apply set_convention_twice.
  - assert (is_Some (functions st1 !! mangler name cargs)) as [g Hg].
    { rewrite Hst1, lookup_alter_eq, lookup_insert_eq. by eexists. }
    rewrite Hg. simpl. rewrite Hst1. apply set_convention_twice.
Qed.

(** X2: declaring a name whose symbol the module already has keeps the
    type the symbol was declared with, whatever the signature given now,
    sets its calling convention to [CC_SPIR_FUNC], and changes nothing
    else. *)
Theorem declare_function_existing (name : string) (sig : signature)
    (cargs : list string) (mangler : string → list string → string)
    (st : lstate) (f : llfunction) :
  functions st !! mangler name cargs = Some f →
  _declare_function name sig cargs mangler st
  = (Ok (VFunc (mangler name cargs)),
     {| functions :=
          <[mangler name cargs :=
              {| fn_type := fn_type f;
                 calling_convention := CC_SPIR_FUNC |}]> (functions st);
        globals := globals st; code := code st |}).
Proof.
  intros Hf. unfold _declare_function, bind, get_or_insert_function.
  rewrite Hf. simpl. unfold set_functions. simpl. do 2 f_equal.
  apply map_eq. intros s.
  destruct (decide (s = mangler name cargs)) as [->|Hne].
  - by rewrite lookup_alter_eq, lookup_insert_eq, Hf.
  - by rewrite lookup_alter_ne, lookup_insert_ne.
Qed.

(** X3: declaring the same name again, under any signature, gives the
    same function and leaves the module exactly as the first declaration
    left it. *)
Theorem declare_function_idempotent (name : string) (sig sig' : signature)
    (cargs : list string) (mangler : string → list string → string)
    (st : lstate) :
  _declare_function name sig' cargs mangler
    (_declare_function name sig cargs mangler st).2
  = _declare_function name sig cargs mangler st.
Proof.
  unfold _declare_function, bind, get_or_insert_function.
  destruct (functions st !! mangler name cargs) as [f|] eqn:Hf; simpl.
  - rewrite lookup_alter_eq, Hf. simpl. unfold set_functions. simpl.
    by rewrite set_convention_twice.
  - rewrite lookup_alter_eq, lookup_insert_eq. simpl.
    unfold set_functions. simpl. by rewrite set_convention_twice.
Qed.

Lemma declare_atomic_pointer (op : string) (llty : lltype) (aspace : Z)
    (ty : ntype) (st : lstate) :
  ∃ sym st',
    _atomic_mangle op ty aspace = Ok sym
    ∧ _declare_atomic op (LPointer llty aspace) ty st = (Ok (VFunc sym), st')
    ∧ code st' = code st
    ∧ globals st' = globals st
    ∧ calling_convention <$> functions st' !! sym = Some CC_SPIR_FUNC
    ∧ (functions st !! sym = None →
       fn_type <$> functions st' !! sym
       = Some (LFunction llty [LPointer llty aspace; llty]))
    ∧ (∀ s, s ≠ sym → functions st' !! s = functions st !! s).
Proof.
  unfold _declare_atomic. unfold bind at 1. unfold lift at 1. simpl.
  unfold bind at 1. unfold lift at 1. simpl.
  unfold bind at 1. unfold lift at 1.
  rewrite atomic_mangle_run.
  destruct (declare_in_module (LFunction llty [LPointer llty aspace; llty])
              ("_Z" +:+ (str_int (7 + len_str op)
               +:+ ("atomic_" +:+ (op
               +:+ ("PVU" +:+ (str_int (len_str ("AS" +:+ str_int aspace))
               +:+ (("AS" +:+ str_int aspace)
               +:+ (mangle_type ty +:+ mangle_type ty)))))))) st)
    as (st' & Hrun & Hrest).
  eexists _, st'. split; [reflexivity|]. split; [exact Hrun | exact Hrest].
Qed.

Lemma declare_atomic_not_pointer (op : string) (llptrty : lltype)
    (ty : ntype) (st : lstate) :
  (∀ llty aspace, llptrty ≠ LPointer llty aspace) →
  _declare_atomic op llptrty ty st
  = (Raise (AttributeError "pointee"), st).
Proof.
  intros Hnot. destruct llptrty; try reflexivity.
  by destruct (Hnot llptrty addrspace).
Qed.

(** X4: [_declare_atomic] given a pointer type declares the atomic symbol
    of the operation, the element type and the pointer's address space,
    with calling convention [CC_SPIR_FUNC] and, when the symbol is new,
    with the hard-coded type: the pointee returned, the pointer and the
    pointee as parameters.  Given a type that is not a pointer it raises
    [AttributeError] and leaves the state as it was. *)
Theorem declare_atomic_spec (op : string) (llptrty : lltype) (ty : ntype)
    (st : lstate) :
  match llptrty with
  | LPointer llty aspace =>
      ∃ sym st',
        _atomic_mangle op ty aspace = Ok sym
        ∧ _declare_atomic op llptrty ty st = (Ok (VFunc sym), st')
        ∧ code st' = code st
        ∧ globals st' = globals st
        ∧ calling_convention <$> functions st' !! sym = Some CC_SPIR_FUNC
        ∧ (functions st !! sym = None →
           fn_type <$> functions st' !! sym
           = Some (LFunction llty [LPointer llty aspace; llty]))
        ∧ (∀ s, s ≠ sym → functions st' !! s = functions st !! s)
  | _ => ∃ msg, _declare_atomic op llptrty ty st
                = (Raise (AttributeError msg), st)
  end.
Proof.
  destruct llptrty as [| | | |llty aspace| | |].
  5: apply declare_atomic_pointer.
  all: exists "pointee"; by apply declare_atomic_not_pointer.
Qed.

(** *** The work-item rules *)

(** What the five size and id rules have in common. *)
Lemma work_item_run (name : string) (sig : signature) (dim : value)
    (st : lstate) :
  let sym := mangle_c name ["unsigned int"] in
  let n := length (code st) in
  ∃ st',
    bind (unpack1 [dim])
         (λ dim, bind (_declare_function name sig ["unsigned int"] mangle_c)
                      (λ fn, bind (builder_call fn [dim])
                                  (λ res, context_cast res uintp intp))) st
    = (Ok (VReg (S n)), st')
    ∧ code st'
      = code st ++ [Call (VFunc sym) [dim]; Cast (VReg n) uintp intp]
    ∧ calling_convention <$> functions st' !! sym = Some CC_SPIR_FUNC
    ∧ (functions st !! sym = None →
       fn_type <$> functions st' !! sym
       = Some (LFunction (get_value_type (return_type sig))
                         (get_value_type <$> sig_args sig)))
    ∧ (∀ s, s ≠ sym → functions st' !! s = functions st !! s)
    ∧ globals st' = globals st.
Proof.
  intros sym n.
  destruct (declare_function_spec name sig ["unsigned int"] mangle_c st)
    as (st1 & Hrun & Hcode & Hglob & Hcc & Hty & Hother).
  fold sym in Hrun, Hcc, Hty, Hother.
  unfold bind at 1. simpl. unfold bind at 1. rewrite Hrun.
  unfold bind, builder_call, context_cast, emit. simpl.
  eexists. split.
  { rewrite Hcode, length_app. simpl.
    replace (length (code st) + 1)%nat with (S n) by (subst n; lia).
    reflexivity. }
  simpl. rewrite Hcode, <- app_assoc. simpl. done.
Qed.

(** X5: each of [get_local_id], [get_group_id], [get_global_size] and
    [get_local_size], lowered for a [uint32] dimension, requests exactly
    one call, to the function whose symbol is [mangle_c] of the rule's
    own name with the C argument type [unsigned int], held by the module
    with [CC_SPIR_FUNC], and returns the cast of the call's result from
    [uintp] to [intp]; nothing else in the module changes. *)
Theorem work_item_queries_lowering (rule : signature → list value → Lower value)
    (name : string) (sig : signature) (dim : value) (st : lstate) :
  (rule, name) ∈ [(get_local_id_impl, "get_local_id");
                  (get_group_id_impl, "get_group_id");
                  (get_global_size_impl, "get_global_size");
                  (get_local_size_impl, "get_local_size")] →
  sig_args sig = [types.uint32] →
  let sym := mangle_c name ["unsigned int"] in
  let n := length (code st) in
  ∃ st',
    rule sig [dim] st = (Ok (VReg (S n)), st')
    ∧ code st'
      = code st ++ [Call (VFunc sym) [dim]; Cast (VReg n) uintp intp]
    ∧ calling_convention <$> functions st' !! sym = Some CC_SPIR_FUNC
    ∧ (functions st !! sym = None →
       fn_type <$> functions st' !! sym
       = Some (LFunction (get_value_type (return_type sig))
                         [get_value_type types.uint32]))
    ∧ (∀ s, s ≠ sym → functions st' !! s = functions st !! s)
    ∧ globals st' = globals st.
Proof.
  intros Hrule Hsig sym n.
  assert (rule sig [dim] st
          = bind (unpack1 [dim])
              (λ dim, bind (_declare_function name sig ["unsigned int"]
                                              mangle_c)
                        (λ fn, bind (builder_call fn [dim])
                                 (λ res, context_cast res uintp intp))) st)
    as ->.
  { repeat (apply elem_of_cons in Hrule as [[= -> ->]|Hrule]; [done|]).
    by apply elem_of_nil in Hrule. }
  destruct (work_item_run name sig dim st)
    as (st' & Hrun & Hcode & Hcc & Hty & Hrest).
  exists st'. rewrite Hsig in Hty. done.
Qed.

(** X6: the barrier rule requests exactly one call, to [mangle_c] of
    [barrier] with the C argument type [unsigned int], held by the module
    with [CC_SPIR_FUNC], and returns the result of that call itself: no
    cast follows. *)
Theorem barrier_lowering (sig : signature) (flags : value) (st : lstate) :
  let sym := mangle_c "barrier" ["unsigned int"] in
  let n := length (code st) in
  ∃ st',
    barrier_impl sig [flags] st = (Ok (VReg n), st')
    ∧ code st' = code st ++ [Call (VFunc sym) [flags]]
    ∧ calling_convention <$> functions st' !! sym = Some CC_SPIR_FUNC
    ∧ (functions st !! sym = None →
       fn_type <$> functions st' !! sym
       = Some (LFunction (get_value_type (return_type sig))
                         (get_value_type <$> sig_args sig)))
    ∧ (∀ s, s ≠ sym → functions st' !! s = functions st !! s)
    ∧ globals st' = globals st.
Proof.
  intros sym n.
  destruct (declare_function_spec "barrier" sig ["unsigned int"] mangle_c st)
    as (st1 & Hrun & Hcode & Hglob & Hcc & Hty & Hother).
  fold sym in Hrun, Hcc, Hty, Hother.
  unfold barrier_impl. unfold bind at 1. simpl.
  unfold bind at 1. rewrite Hrun.
  unfold builder_call, emit. simpl.
  eexists. split; [by rewrite Hcode|]. simpl. rewrite Hcode. done.
Qed.

(** X7: given any number of arguments other than one, each of the six
    work-item rules raises [ValueError] at the unpacking of its argument,
    before anything is declared or requested: the state is as it was. *)
Theorem work_item_wrong_arity (rule : signature → list value → Lower value)
    (sig : signature) (args : list value) (st : lstate) :
  rule ∈ [get_global_id_impl; get_local_id_impl; get_group_id_impl;
          get_global_size_impl; get_local_size_impl; barrier_impl] →
  length args ≠ 1%nat →
  ∃ msg, rule sig args st = (Raise (ValueError msg), st).
Proof.
  intros Hrule Hlen.
  assert (unpack1 args st
          = (Raise (ValueError "wrong number of values to unpack"), st))
    as Hunpack.
  { by destruct args as [|a [|b args]]. }
  repeat (apply elem_of_cons in Hrule as [->|Hrule];
          [eexists; unfold get_global_id_impl, get_local_id_impl,
             get_group_id_impl, get_global_size_impl, get_local_size_impl,
             barrier_impl; unfold bind at 1; rewrite Hunpack; reflexivity|]).
  by apply elem_of_nil in Hrule.
Qed.

(** X8: lowering [get_global_id] twice in one module declares the builtin
    once: the functions of the module after the second lowering are those
    after the first, and the builder holds the two calls, each followed
    by its cast, to the same function. *)
Theorem get_global_id_twice (sig sig' : signature) (dim dim' : value)
    (st : lstate) :
  let sym := mangle_c "get_global_id" ["unsigned int"] in
  let n := length (code st) in
  let st1 := (get_global_id_impl sig [dim] st).2 in
  let st2 := (get_global_id_impl sig' [dim'] st1).2 in
  functions st2 = functions st1
  ∧ code st2
    = code st ++ [Call (VFunc sym) [dim]; Cast (VReg n) uintp intp;
                  Call (VFunc sym) [dim'];
                  Cast (VReg (S (S n))) uintp intp]
  ∧ (get_global_id_impl sig' [dim'] st1).1 = Ok (VReg (S (S (S n)))).
Proof.
  intros sym n st1 st2.
  assert (∀ sg d s,
            get_global_id_impl sg [d] s
            = (Ok (VReg (S (length (code s)))),
               {| functions :=
                    functions (_declare_function "get_global_id" sg
                                 ["unsigned int"] mangle_c s).2;
                  globals := globals s;
                  code := code s ++ [Call (VFunc sym) [d];
                                     Cast (VReg (length (code s)))
                                          uintp intp] |})) as Hrun.
  { intros sg d s.
    unfold get_global_id_impl. unfold bind at 1. simpl.
    unfold bind at 1.
    destruct (declare_function_spec "get_global_id" sg ["unsigned int"]
                mangle_c s) as (s1 & Hs1 & Hcode & Hglob & _).
    rewrite Hs1. simpl.
    unfold bind, builder_call, context_cast, emit, set_code. simpl.
    rewrite Hcode, Hglob, length_app, <- app_assoc. simpl.
    by replace (length (code s) + 1)%nat with (S (length (code s))) by lia. }
  subst st2. rewrite (Hrun sig' dim' st1). simpl.
  subst st1. rewrite (Hrun sig dim st). simpl.
  rewrite length_app, <- app_assoc. simpl.
  replace (length (code st) + 2)%nat with (S (S n)) by (subst n; lia).
  split; [|done].
  exact (declare_function_again "get_global_id" sig sig' ["unsigned int"]
           mangle_c st
           {| functions :=
                functions (_declare_function "get_global_id" sig
                             ["unsigned int"] mangle_c st).2;
              globals := globals st;
              code := code st ++ [Call (VFunc sym) [dim];
                                  Cast (VReg (length (code st)))
                                       uintp intp] |}
           eq_refl).
Qed.

(** *** Atomic add, on every path *)

Lemma with_code_nil (st : lstate) : with_code st [] = st.
Proof. destruct st. unfold with_code. simpl. by rewrite app_nil_r. Qed.

Lemma with_code_app (st : lstate) (xs ys : list request) :
  with_code (with_code st xs) ys = with_code st (xs ++ ys).
Proof. unfold with_code. simpl. by rewrite app_assoc. Qed.

Lemma quiet_ret {A} (a : A) : quiet (ret a).
Proof. intros st. exists (Ok a), []. by rewrite with_code_nil. Qed.

Lemma quiet_raise {A} (e : exn) : quiet (@raise A e).
Proof. intros st. exists (Raise e), []. by rewrite with_code_nil. Qed.

Lemma quiet_lift {A} (r : result A) : quiet (lift r).
Proof. intros st. exists r, []. by rewrite with_code_nil. Qed.

Lemma quiet_emit (r : request) : is_call r = false → quiet (emit r).
Proof.
  intros Hr st. exists (Ok (VReg (length (code st)))), [r].
  split; [done|]. unfold calls_in. rewrite filter_cons_False; [done|].
  by rewrite Hr.
Qed.

Lemma quiet_bind {A B} (m : Lower A) (k : A → Lower B) :
  quiet m → (∀ a, quiet (k a)) → quiet (bind m k).
Proof.
  intros Hm Hk st. destruct (Hm st) as (r & xs & Hrun & Hxs).
  unfold bind. rewrite Hrun. destruct r as [a|e].
  - destruct (Hk a (with_code st xs)) as (r' & ys & Hrun' & Hys).
    exists r', (xs ++ ys). rewrite Hrun', with_code_app.
    split; [done|]. by rewrite calls_in_app, Hxs, Hys.
  - by exists (Raise e), xs.
Qed.

Lemma quiet_mapM {A B} (f : A → Lower B) (l : list A) :
  (∀ a, quiet (f a)) → quiet (mapM f l).
Proof.
  intros Hf. induction l as [|x l IH]; simpl.
  - apply quiet_ret.
  - apply quiet_bind; [apply Hf|]. intros y.
    apply quiet_bind; [apply IH|]. intros ys. apply quiet_ret.
Qed.

Lemma quiet_unpack3 {A} (seq : list A) : quiet (unpack3 seq).
Proof.
  destruct seq as [|a [|b [|c [|d seq]]]];
    first [apply quiet_ret | apply quiet_raise].
Qed.

(** The branch on the index type makes no call and leaves the module
    alone, whatever the index type is. *)
Lemma atomic_add_indices_quiet (inds : value) (indty : ntype) :
  quiet (atomic_add_indices inds indty).
Proof.
  unfold atomic_add_indices. destruct (types.eqb indty intp).
  - apply quiet_ret.
  - apply quiet_bind; [apply quiet_lift|]. intros count.
    apply quiet_bind; [by apply quiet_mapM; intros i; apply quiet_emit|].
    intros unpacked.
    apply quiet_bind; [apply quiet_lift|]. intros elts.
    apply quiet_bind; [by apply quiet_mapM; intros i; apply quiet_emit|].
    intros indices. apply quiet_ret.
Qed.

Lemma call_on_success_raise (e : exn) : call_on_success (raise e).
Proof.
  intros st. exists []. simpl. by rewrite app_nil_r.
Qed.

Lemma call_on_success_bind {A} (m : Lower A) (k : A → Lower value) :
  quiet m → (∀ a, call_on_success (k a)) → call_on_success (bind m k).
Proof.
  intros Hm Hk st. destruct (Hm st) as (r & xs & Hrun & Hxs).
  unfold bind. rewrite Hrun. destruct r as [a|e].
  - destruct (Hk a (with_code st xs)) as (ys & Hglob & Hcode & Hres).
    exists (xs ++ ys). rewrite Hglob, Hcode. simpl.
    split; [done|]. split; [by rewrite app_assoc|].
    destruct (k a (with_code st xs)).1 as [v|e].
    + destruct Hres as (pre & fn & args & -> & Hpre & ->).
      exists (xs ++ pre), fn, args. simpl.
      split; [by rewrite app_assoc|].
      split; [by rewrite calls_in_app, Hxs, Hpre|].
      by rewrite app_assoc.
    + destruct Hres as [Hys Hfn].
      split; [by rewrite calls_in_app, Hxs, Hys | done].
  - exists xs. simpl. done.
Qed.

Lemma call_on_success_declare_atomic (op : string) (llptrty : lltype)
    (ty : ntype) (args : list value) :
  call_on_success
    (bind (_declare_atomic op llptrty ty) (λ fn, builder_call fn args)).
Proof.
  intros st. unfold bind.
  assert ((∃ llty aspace, llptrty = LPointer llty aspace)
          ∨ ∀ llty aspace, llptrty ≠ LPointer llty aspace) as [Hptr|Hnot].
  { destruct llptrty; try (by right); left; by eauto. }
  - destruct Hptr as (llty & aspace & ->).
    destruct (declare_atomic_pointer op llty aspace ty st)
      as (sym & st' & _ & -> & Hcode & Hglob & _).
    unfold builder_call, emit. simpl.
    exists [Call (VFunc sym) args]. rewrite Hcode, Hglob.
    split; [done|]. split; [done|].
    exists [], (VFunc sym), args. by rewrite app_nil_r.
  - rewrite (declare_atomic_not_pointer op llptrty ty st Hnot).
    exists []. simpl. by rewrite app_nil_r.
Qed.

(** X9: on every signature, every argument list and every state, the
    atomic add requests a call only when it succeeds.  The global
    variables are never touched and earlier requests are kept; when the
    rule raises, at whatever check, it has requested no call and declared
    no function; when it returns, it returns the result of its last
    request, a call, the only one it has requested. *)
Theorem atomic_add_call_on_success (sig : signature) (args : list value) :
  call_on_success (hsail_atomic_add_tuple sig args).
Proof.
  unfold hsail_atomic_add_tuple.
  apply call_on_success_bind; [apply quiet_unpack3|].
  intros [[aryty indty] valty].
  apply call_on_success_bind; [apply quiet_unpack3|].
  intros [[ary inds] val].
  apply call_on_success_bind; [apply quiet_lift|]. intros dtype.
  apply call_on_success_bind; [apply atomic_add_indices_quiet|].
  intros [indices indty'].
  apply call_on_success_bind.
  { destruct (negb _); [apply quiet_raise | apply quiet_ret]. }
  intros _.
  apply call_on_success_bind; [apply quiet_lift|]. intros ndim.
  apply call_on_success_bind; [apply quiet_lift|]. intros nidx.
  apply call_on_success_bind.
  { destruct (negb _); [apply quiet_raise | apply quiet_ret]. }
  intros _.
  apply call_on_success_bind; [by apply quiet_emit|]. intros ptr.
  apply call_on_success_declare_atomic.
Qed.

(** *** Atomic add, when it succeeds *)

Lemma tuple_len_iter (indty : ntype) :
  types.is_UniTuple indty || types.is_Tuple indty = true →
  types.len indty = Ok (length (index_member_types indty))
  ∧ types.iter indty = Ok (index_member_types indty).
Proof.
  destruct indty; try discriminate; intros _; simpl.
  - by rewrite length_replicate.
  - done.
Qed.

Lemma atomic_add_indices_run (inds : value) (indty : ntype) (st : lstate) :
  types.eqb indty intp || types.is_UniTuple indty || types.is_Tuple indty
  = true →
  let n := length (code st) in
  let indty' := if types.eqb indty intp then IndexList [indty]
                else IndexType indty in
  atomic_add_indices inds indty st
  = (Ok (lowered_indices inds indty n, indty'),
     with_code st (index_requests inds indty n))
  ∧ len_indty indty' = Ok (index_components indty)
  ∧ length (lowered_indices inds indty n) = index_components indty.
Proof.
  intros Hkind n.
  unfold atomic_add_indices, lowered_indices, index_requests,
    index_components.
  destruct (types.eqb indty intp) eqn:Hint.
  - unfold ret. by rewrite with_code_nil.
  - simpl in Hkind. destruct (tuple_len_iter indty Hkind) as [Hlen Hiter].
    set (elts := index_member_types indty) in *.
    unfold bind at 1. unfold lift at 1. rewrite Hlen.
    unfold bind at 1. unfold cgutils_unpack_tuple. rewrite mapM_emit.
    unfold bind at 1. unfold lift at 1. rewrite Hiter.
    unfold bind at 1. unfold context_cast. rewrite mapM_emit.
    simpl. unfold ret, with_code.
    rewrite length_zip, !length_fmap, !length_seq, Nat.min_id, length_app,
      length_fmap, length_seq, <- app_assoc.
    fold n. split; [done|]. split.
    + clear Hlen Hiter. subst elts.
      destruct indty; try discriminate Hkind; reflexivity.
    + clear Hlen Hiter. subst elts.
      destruct indty; try discriminate Hkind; simpl;
        [by rewrite length_replicate | done].
Qed.

(** X10: a tuple index is lowered member by member and in order: first
    one extraction per member of the tuple, then one cast to [intp] per
    member, the i-th cast taking the i-th extracted value from the i-th
    member type; the indices used afterwards are the results of the
    casts, in order.  The module is not touched. *)
Theorem atomic_add_tuple_index (inds : value) (indty : ntype)
    (st : lstate) :
  types.eqb indty intp = false →
  types.is_UniTuple indty || types.is_Tuple indty = true →
  let n := length (code st) in
  let elts := index_member_types indty in
  let count := length elts in
  atomic_add_indices inds indty st
  = (Ok (VReg <$> seq (n + count) count, IndexType indty),
     with_code st
       ((ExtractValue inds <$> seq 0 count)
        ++ ((λ ti, Cast ti.2 ti.1 intp)
            <$> zip elts (VReg <$> seq n count)))).
Proof.
  intros Hint Hkind n elts count.
  destruct (atomic_add_indices_run inds indty st) as (Hrun & _).
  { by rewrite Hint. }
  unfold lowered_indices, index_requests in Hrun.
  by rewrite Hint in Hrun.
Qed.

(** X11: a well-typed atomic add (element dtype equal to the value type,
    as many index components as dimensions, a pointer as the array's data
    pointer type) succeeds.  After the requests for the index it requests
    the item pointer of the array at the lowered indices, declares the
    atomic [add] builtin for the value type in the data pointer's address
    space, with [CC_SPIR_FUNC] and, when new, the type built from the
    pointer, and requests one call of it on the item pointer and the
    value, whose result it returns. *)
Theorem atomic_add_lowering (sig : signature) (ary inds val : value)
    (dtype indty : ntype) (ndim : nat) (layout : string) (llty : lltype)
    (aspace : Z) (st : lstate) :
  sig_args sig = [types.Array dtype ndim layout; indty; dtype] →
  atomic_add_registered sig = true →
  ndim = index_components indty →
  data_pointer_type (types.Array dtype ndim layout) = LPointer llty aspace →
  let aryty := types.Array dtype ndim layout in
  let n := length (code st) in
  let reqs := index_requests inds indty n in
  let indices := lowered_indices inds indty n in
  let p := (n + length reqs)%nat in
  ∃ sym st',
    _atomic_mangle "add" dtype aspace = Ok sym
    ∧ hsail_atomic_add_tuple sig [ary; inds; val] st = (Ok (VReg (S p)), st')
    ∧ code st'
      = code st ++ reqs
        ++ [GetItemPointer aryty (context_make_array aryty (Some ary))
                           indices;
            Call (VFunc sym) [VReg p; val]]
    ∧ length indices = ndim
    ∧ calling_convention <$> functions st' !! sym = Some CC_SPIR_FUNC
    ∧ (functions st !! sym = None →
       fn_type <$> functions st' !! sym
       = Some (LFunction llty [LPointer llty aspace; llty]))
    ∧ (∀ s, s ≠ sym → functions st' !! s = functions st !! s)
    ∧ globals st' = globals st.
Proof.
  intros Hsig Hreg Hndim Hptr aryty n reqs indices p.
  destruct (atomic_add_indices_run inds indty st
              (registered_index_kind _ _ _ _ Hsig Hreg))
    as (Hrun & Hlen & Hcount).
  fold n reqs indices in Hrun, Hcount.
  pose (st1 := set_code (λ c, c ++ [GetItemPointer aryty
                                      (context_make_array aryty (Some ary))
                                      indices])
                        (with_code st reqs)).
  destruct (declare_atomic_pointer "add" llty aspace dtype st1)
    as (sym & st' & Hsym & Hdecl & Hcode & Hglob & Hcc & Hty & Hother).
  exists sym, (set_code (λ c, c ++ [Call (VFunc sym) [VReg p; val]]) st').
  split; [exact Hsym|].
  split.
  { unfold hsail_atomic_add_tuple. rewrite Hsig.
    unfold bind at 1. simpl. unfold bind at 1. simpl.
    unfold bind at 1. simpl. unfold bind at 1. rewrite Hrun.
    unfold bind at 1. rewrite types_eqb_refl. simpl.
    unfold bind at 1. simpl. unfold bind at 1. rewrite Hlen. simpl.
    unfold bind at 1. rewrite <- Hndim, Nat.eqb_refl. simpl.
    unfold bind at 1. unfold cgutils_get_item_pointer, emit at 1.
    rewrite Hptr. fold aryty indices. fold st1.
    unfold bind at 1. rewrite Hdecl.
    unfold builder_call, emit. simpl. rewrite Hcode. subst st1. simpl.
    rewrite !length_app. simpl.
    replace (length (code st) + length reqs + 1)%nat with (S p)
      by (subst p n; lia).
    by replace (length (code st) + length reqs)%nat with p
      by (subst p n; lia). }
  simpl. rewrite Hcode, Hglob. subst st1. simpl.
  rewrite <- !app_assoc. simpl.
  split; [done|]. split; [by rewrite Hcount|]. done.
Qed.

(** *** Shared-memory arrays, on every path *)

Lemma make_array_no_layout_run (dataptr : value) (dtype : ntype)
    (shape : list Z) (st : lstate) :
  DATALAYOUT !! address_size = None →
  _make_array dataptr dtype shape st
  = (Raise (KeyError (str_int address_size)),
     with_code st
       [Bitcast dataptr
                (data_pointer_type
                   (types.Array dtype (length shape) "C"))]).
Proof.
  intros Hlayout. unfold _make_array, _get_target_data. rewrite Hlayout.
  unfold bind, lift, builder_bitcast, emit. simpl. done.
Qed.



(** X14: whatever its arguments and its outcome, the shared-memory
    allocation declares no function and requests no call; it keeps the
    requests made before and the global variables the module had, after
    which it adds at most one. *)
Theorem smem_alloc_frame (sig : signature) (shape : list Z) (dtype : ntype)
    (st : lstate) :
  let st' := (hsail_smem_alloc_array sig (shape, dtype) st).2 in
  functions st' = functions st
  ∧ (∃ added, globals st' = globals st ++ added ∧ (length added ≤ 1)%nat)
  ∧ (∃ extra, code st' = code st ++ extra ∧ calls_in extra = []).
Proof.
  assert (∀ gs : list llglobal,
            ∃ added, gs = gs ++ added ∧ (length added ≤ 1)%nat) as Hsame.
  { intros gs. exists []. rewrite app_nil_r. simpl. split; [done | lia]. }
  assert (∀ (gs : list llglobal) g,
            ∃ added, gs ++ [g] = gs ++ added ∧ (length added ≤ 1)%nat)
    as Hone.
  { intros gs g. exists [g]. simpl. split; [done | lia]. }
  assert (∀ cs : list request,
            ∃ extra, cs = cs ++ extra ∧ calls_in extra = []) as Hnone.
  { intros cs. exists []. by rewrite app_nil_r. }
  rewrite smem_alloc_unfold. destruct shape as [|x xs].
  { simpl. done. }
  rewrite generic_array_local_run by done. cbv zeta.
  destruct (_ <=? 0).
  { simpl. done. }
  destruct (types.member _ _); cbv iota.
  - destruct (DATALAYOUT !! address_size) as [layout|] eqn:Hlayout.
    + rewrite (make_array_run _ _ _ _ layout Hlayout). simpl.
      split; [done|]. split; [done|].
      rewrite <- app_assoc. by eexists.
    + rewrite (make_array_no_layout_run _ _ _ _ Hlayout). simpl.
      split; [done|]. split; [done|].
      rewrite <- app_assoc. by eexists.
  - simpl. done.
Qed.

(** *** The array structure *)

Lemma strides_after_head (itemsize : Z) (sizes : list Z) :
  head (strides_after itemsize sizes)
  = Some (itemsize * shape_product sizes).
Proof. by destruct sizes. Qed.

Lemma strides_after_last (itemsize : Z) (sizes : list Z) :
  last (strides_after itemsize sizes) = Some itemsize.
Proof.
  induction sizes as [|x t IH].
  - simpl. unfold shape_product. simpl. by rewrite Z.mul_1_r.
  - simpl. destruct (strides_after itemsize t) eqn:E; [|done].
    by destruct t.
Qed.


(** X16: the strides [_make_array] packs for a non-empty shape span
    exactly the elements of the shape: the last stride is the item size,
    there is one stride per dimension, and the first stride times the
    first shape entry is the item size times the product of the shape,
    the byte size of an array of that many items. *)
Theorem make_array_extent (dataptr : value) (dtype : ntype)
    (first : Z) (rest : list Z) (layout : string) (st : lstate) :
  DATALAYOUT !! address_size = Some layout →
  let shape := first :: rest in
  let itemsize := get_abi_size (get_data_type dtype) layout in
  ∃ v strides,
    (_make_array dataptr dtype shape st).1
    = Ok (VArrayStruct (types.Array dtype (length shape) "C")
                       (Some (VReg (length (code st))))
                       (Some (VReg (S (length (code st)))))
                       (Some v))
    ∧ last (code (_make_array dataptr dtype shape st).2)
      = Some (PackArray (VConst intp <$> strides))
    ∧ v = VReg (S (S (length (code st))))
    ∧ length strides = length shape
    ∧ last strides = Some itemsize
    ∧ ∃ top, head strides = Some top
             ∧ first * top = itemsize * shape_product shape.
Proof.
  intros Hlayout shape itemsize.
  rewrite (make_array_run _ _ _ _ layout Hlayout). simpl.
  exists (VReg (S (S (length (code st))))),
         (strides_after itemsize rest).
  split; [done|]. split.
  { change (code st ++ ?a :: ?b :: ?c :: []) with (code st ++ [a; b] ++ [c]).
    by rewrite !app_assoc, last_snoc. }
  split; [done|]. split; [by rewrite strides_after_length|].
  split; [apply strides_after_last|].
  exists (itemsize * shape_product rest).
  split; [apply strides_after_head|].
  unfold shape_product. simpl. lia.
Qed.

End coverage.

Section coverage_on_sample.
#[local] Existing Instances sample.target sample.mangler sample.context
  sample.host.

Lemma atomic_mangle_injective_witness :
  _atomic_mangle "add" types.float32 4 = _atomic_mangle "add" types.float32 4
  ∧ 4 = 4.
Proof.
  split; [reflexivity|].
  exact (proj1 (proj2 (atomic_mangle_injective "add" "add" types.float32
                         types.float32 4 4 eq_refl))).
Defined.

Lemma declare_function_existing_witness :
  functions sample.declared !! "_Z13get_global_idj"
  = Some {| fn_type := LFunction (LInt 32) [LInt 64];
            calling_convention := "" |}
  ∧ fn_type
    <$> functions (_declare_function "get_global_id" sample.sig_id
                     ["unsigned int"] mangle_c sample.declared).2
        !! "_Z13get_global_idj"
    = Some (LFunction (LInt 32) [LInt 64]).
Proof.
  assert (functions sample.declared !! mangle_c "get_global_id"
                                                ["unsigned int"]
          = Some {| fn_type := LFunction (LInt 32) [LInt 64];
                    calling_convention := "" |}) as Hf by reflexivity.
  split; [exact Hf|].
  rewrite (declare_function_existing "get_global_id" sample.sig_id
             ["unsigned int"] mangle_c sample.declared _ Hf).
  reflexivity.
Defined.

Lemma work_item_queries_lowering_witness :
  (get_local_id_impl, "get_local_id")
  ∈ [(get_local_id_impl, "get_local_id");
     (get_group_id_impl, "get_group_id");
     (get_global_size_impl, "get_global_size");
     (get_local_size_impl, "get_local_size")]
  ∧ sig_args sample.sig_id = [types.uint32]
  ∧ ∃ st',
      get_local_id_impl sample.sig_id [VArg "dim"] sample.empty
      = (Ok (VReg 1), st')
      ∧ code st' = [Call (VFunc "_Z12get_local_idj") [VArg "dim"];
                    Cast (VReg 0) types.uint64 types.int64].
Proof.
  assert ((get_local_id_impl, "get_local_id")
          ∈ [(get_local_id_impl, "get_local_id");
             (get_group_id_impl, "get_group_id");
             (get_global_size_impl, "get_global_size");
             (get_local_size_impl, "get_local_size")]) as Hin
    by (apply elem_of_cons; left; reflexivity).
  split; [exact Hin|]. split; [reflexivity|].
  destruct (work_item_queries_lowering get_local_id_impl "get_local_id"
              sample.sig_id (VArg "dim") sample.empty Hin eq_refl)
    as (st' & Hrun & Hcode & _).
  exists st'. split; [exact Hrun | exact Hcode].
Defined.

Lemma work_item_wrong_arity_witness :
  barrier_impl ∈ [get_global_id_impl; get_local_id_impl; get_group_id_impl;
                  get_global_size_impl; get_local_size_impl; barrier_impl]
  ∧ length ([] : list value) ≠ 1%nat
  ∧ ∃ msg, barrier_impl sample.sig_id [] sample.empty
           = (Raise (ValueError msg), sample.empty).
Proof.
  assert (barrier_impl
          ∈ [get_global_id_impl; get_local_id_impl; get_group_id_impl;
             get_global_size_impl; get_local_size_impl; barrier_impl])
    as Hin
    by (do 5 (apply elem_of_cons; right); apply elem_of_cons; left;
        reflexivity).
  assert (length ([] : list value) ≠ 1%nat) as Hlen by discriminate.
  split; [exact Hin|]. split; [exact Hlen|].
  exact (work_item_wrong_arity barrier_impl sample.sig_id [] sample.empty
           Hin Hlen).
Defined.

Lemma atomic_add_tuple_index_witness :
  types.eqb (types.UniTuple types.int64 2) intp = false
  ∧ types.is_UniTuple (types.UniTuple types.int64 2)
    || types.is_Tuple (types.UniTuple types.int64 2) = true
  ∧ atomic_add_indices (VArg "inds") (types.UniTuple types.int64 2)
                       sample.empty
    = (Ok ([VReg 2; VReg 3], IndexType (types.UniTuple types.int64 2)),
       with_code sample.empty
         [ExtractValue (VArg "inds") 0; ExtractValue (VArg "inds") 1;
          Cast (VReg 0) types.int64 types.int64;
          Cast (VReg 1) types.int64 types.int64]).
Proof.
  split; [reflexivity|]. split; [reflexivity|].
  exact (atomic_add_tuple_index (VArg "inds") (types.UniTuple types.int64 2)
           sample.empty eq_refl eq_refl).
Defined.

Lemma two_components : 2%nat = index_components (types.UniTuple types.int64 2).
Proof. reflexivity. Qed.

Lemma atomic_add_lowering_witness :
  sig_args sample.sig_add
  = [types.Array types.float32 2 "C"; types.UniTuple types.int64 2;
     types.float32]
  ∧ atomic_add_registered sample.sig_add = true
  ∧ 2%nat = index_components (types.UniTuple types.int64 2)
  ∧ data_pointer_type (types.Array types.float32 2 "C") = LPointer LFloat 4
  ∧ ∃ st',
      hsail_atomic_add_tuple sample.sig_add
        [VArg "ary"; VArg "inds"; VArg "val"] sample.empty
      = (Ok (VReg 5), st')
      ∧ calling_convention <$> functions st' !! "_Z10atomic_addPVU3AS4ff"
        = Some "spir_func".
Proof.
  assert (atomic_add_registered sample.sig_add = true) as Hreg
    by reflexivity.
  assert (data_pointer_type (types.Array types.float32 2 "C")
          = LPointer LFloat 4) as Hptr by reflexivity.
  split; [reflexivity|]. split; [exact Hreg|].
  split; [exact two_components|]. split; [exact Hptr|].
  destruct (atomic_add_lowering sample.sig_add (VArg "ary") (VArg "inds")
              (VArg "val") types.float32 (types.UniTuple types.int64 2) 2
              "C" LFloat 4 sample.empty eq_refl Hreg two_components Hptr)
    as (sym & st' & Hsym & Hrun & _ & _ & Hcc & _).
  injection Hsym as <-.
  exists st'. split; [exact Hrun | exact Hcc].
Defined.

Lemma product_24_positive : 0 < shape_product [2; 3; 4].
Proof. reflexivity. Qed.

Lemma shape_234_not_empty : [2; 3; 4] ≠ ([] : list Z).
Proof. discriminate. Qed.

Lemma sample_layout :
  DATALAYOUT !! address_size = Some "e-p:32:32-p1:64:64-i64:64-n32:64".
Proof. reflexivity. Qed.

Lemma sample_no_layout :
  DATALAYOUT !! @address_size sample.context32 = None.
Proof. reflexivity. Qed.

Lemma float32_numeric :
  types.member types.float32 types.number_domain = true.
Proof. reflexivity. Qed.




Lemma make_array_extent_witness :
  DATALAYOUT !! address_size = Some "e-p:32:32-p1:64:64-i64:64-n32:64"
  ∧ ∃ strides,
      last (code (_make_array (VArg "p") types.float32 [2; 3; 4]
                    sample.empty).2)
      = Some (PackArray (VConst types.int64 <$> strides))
      ∧ last strides = Some 4
      ∧ ∃ top, head strides = Some top ∧ 2 * top = 4 * 24.
Proof.
  split; [reflexivity|].
  destruct (make_array_extent (VArg "p") types.float32 2 [3; 4]
              "e-p:32:32-p1:64:64-i64:64-n32:64" sample.empty sample_layout)
    as (v & strides & _ & Hlast & _ & _ & Hitem & top & Htop & Hext).
  exists strides. split; [exact Hlast|]. split; [exact Hitem|].
  exists top. split; [exact Htop | exact Hext].
Defined.

End coverage_on_sample.
